(** * tk-multi-testapp: the dialog of [python/app/dialog.py]

    A shallow embedding of the two proxy models ([AlphaProxyModel],
    [UniqueNameProxyModel]) and of the dialog controller ([AppDialog]),
    followed by the properties of the specification that they decide.

    The host (Qt item models, the Shotgun model framework) is not part of
    the repository.  Every call the Python code makes into it appears here
    as a field of a record of outcomes (value or raised exception), so that
    each method is a function of what the host answers. *)

From Stdlib Require Import List String Ascii ZArith NArith Bool Lia.
From Stdlib Require Import Permutation Sorted DecimalString.
Import ListNotations.

Set Implicit Arguments.

(* ===================================================================== *)
(** * Python values *)
(* ===================================================================== *)

(** A Python [str] is a sequence of Unicode code points. *)
Definition str := list N.

(** A string literal of the source, as code points. *)
Definition lit (s : string) : str :=
  map N_of_ascii (list_ascii_of_string s).

(** Exceptions: instances of Python's [Exception], the class every handler
    of the file names ([except Exception as e]).  Each carries its message,
    which is what [str(e)] and an f-string [{e}] print. *)
Inductive exn : Type :=
| AttributeError (msg : string)
| TypeError (msg : string)
| RuntimeError (msg : string)
| RecursionError (msg : string)
| PyException (msg : string).

Definition exn_str (e : exn) : string :=
  match e with
  | AttributeError m | TypeError m | RuntimeError m
  | RecursionError m | PyException m => m
  end.

(** Outcome of a call: it returns or it raises. *)
Inductive result (A : Type) : Type :=
| Ok (a : A)
| Raise (e : exn).
Arguments Ok {A} a.
Arguments Raise {A} e.

(** A Shotgun entity dictionary, [{"type": ..., "id": ...}]. *)
Record Entity : Type := { entity_type : string; entity_id : Z }.

Definition Entity_eqb (a b : Entity) : bool :=
  String.eqb (entity_type a) (entity_type b) && Z.eqb (entity_id a) (entity_id b).

(** The values that cross the item-model boundary: [None], a [str] (the
    display role) or an entity dictionary (the Shotgun data role). *)
Inductive PyVal : Type :=
| PyNone
| PyStr (s : str)
| PyEntity (e : Entity).

Fixpoint str_eqb (a b : str) : bool :=
  match a, b with
  | [], [] => true
  | x :: a', y :: b' => N.eqb x y && str_eqb a' b'
  | _, _ => false
  end.

(** Python [==] on these values. *)
Definition py_eq (a b : PyVal) : bool :=
  match a, b with
  | PyNone, PyNone => true
  | PyStr s, PyStr t => str_eqb s t
  | PyEntity e, PyEntity f => Entity_eqb e f
  | _, _ => false
  end.

(** Python [<] on two [str]: code point by code point, a proper prefix
    ordering first. *)
Fixpoint str_ltb (a b : str) : bool :=
  match a, b with
  | _, [] => false
  | [], _ :: _ => true
  | x :: a', y :: b' =>
      if N.ltb x y then true
      else if N.eqb x y then str_ltb a' b'
      else false
  end.

Definition type_name (v : PyVal) : string :=
  match v with
  | PyNone => "NoneType"
  | PyStr _ => "str"
  | PyEntity _ => "dict"
  end.

(** Python [<]: defined between two [str]; [None] and dictionaries are
    unorderable in Python 3 and the comparison raises [TypeError]. *)
Definition py_lt (a b : PyVal) : result bool :=
  match a, b with
  | PyStr s, PyStr t => Ok (str_ltb s t)
  | _, _ =>
      Raise (TypeError ("'<' not supported between instances of '"
                          ++ type_name a ++ "' and '" ++ type_name b ++ "'"))
  end.

(** [range(n)]. *)
Definition py_range (n : Z) : list Z :=
  map Z.of_nat (seq 0 (Z.to_nat n)).

(** The lexicographic order of the specification, stated on its own:
    [a] is below [b] when it is a proper prefix of [b], or when at the first
    position where they differ [a] holds the smaller code point. *)
Inductive lex_lt : str -> str -> Prop :=
| lex_lt_prefix (p : str) (y : N) (t : str) :
    lex_lt p (p ++ y :: t)
| lex_lt_differ (p : str) (x y : N) (s t : str) :
    (x < y)%N -> lex_lt (p ++ x :: s) (p ++ y :: t).

(* ===================================================================== *)
(** * The process state and the monad of the methods *)
(* ===================================================================== *)

Inductive Level : Type := DEBUG | INFO | ERROR.

(** One record of the module-level [logger]. *)
Record LogRecord : Type := {
  levelname : Level;
  message : string;
  exc_info : bool }.

Inductive SortOrder : Type := AscendingOrder | DescendingOrder.

Inductive QModelIndex : Type :=
| InvalidIndex
| IndexAt (row column : Z).

Inductive ItemDataRole : Type := DisplayRole | SG_DATA_ROLE.

(** A Shotgun filter triple [[field, "is", value]]. *)
Record Filter : Type := { f_field : string; f_op : string; f_value : PyVal }.

Inductive Signal : Type :=
| selectionChanged | data_refreshed | refresh_clicked
| clear_cache_clicked | stateChanged.

Inductive Slot : Type :=
| slot_handle_asset_selection | slot_on_task_data_refreshed
| slot_load_task_data | slot_hard_refresh | slot_on_dynamic_sort_changed.

(** The calls [AppDialog] makes on the widgets, models and proxies it owns
    that change something or ask for work. *)
Inductive Call : Type :=
| ui_setupUi
| tree_setIndentation (n : Z)
| tree_setUniformRowHeights (b : bool)
| tree_setSortingEnabled (b : bool)
| tree_sortByColumn (column : Z) (order : SortOrder)
| entity_model_create (entity_type : string) (filters : list Filter)
    (hierarchy fields : list string)
| entity_model_async_refresh
| entity_proxy_create
| entity_proxy_setDynamicSortFilter (b : bool)
| entity_proxy_setSourceModel
| tree_setModel
| tasks_model_create
| tasks_proxy_create
| tasks_proxy_setDynamicSortFilter (state : Z)
| tasks_proxy_setSourceModel
| list_setModel
| checkbox_setChecked (b : bool)
| connect (sig : Signal) (slot : Slot)
| entity_model_destroy
| tasks_model_destroy
| tasks_model_load_data (entity_type : string) (fields : list string)
    (filters : list Filter) (hierarchy : list string)
| tasks_model_refresh_data
| tasks_model_clear
| tasks_model_hard_refresh
| tasks_proxy_sort (column : Z) (order : SortOrder).

(** What is observable of a run: the attribute [active_entity] of the dialog
    ([None] while the attribute does not exist), the calls issued so far with
    what each of them raised, oldest first, and the log. *)
Record World : Type := {
  active_entity : option PyVal;
  trace : list (Call * option exn);
  log : list LogRecord }.

(** A method: from a state to an outcome and a state.  What a method did
    before it raised stays done. *)
Definition M (A : Type) : Type := World -> result A * World.

Definition ret {A} (a : A) : M A := fun w => (Ok a, w).

Definition bind {A B} (m : M A) (k : A -> M B) : M B :=
  fun w =>
    match m w with
    | (Ok a, w') => k a w'
    | (Raise e, w') => (Raise e, w')
    end.

Definition raise {A} (e : exn) : M A := fun w => (Raise e, w).

(** An answer of the host, read without changing anything. *)
Definition ask {A} (r : result A) : M A := fun w => (r, w).

(** [try: body except Exception as e: handler]. *)
Definition try_except {A} (body : M A) (handler : exn -> M A) : M A :=
  fun w =>
    match body w with
    | (Ok a, w') => (Ok a, w')
    | (Raise e, w') => handler e w'
    end.

Declare Scope py_scope.
Delimit Scope py_scope with py.
Notation "x <- m ;; k" := (bind m (fun x => k))
  (at level 100, m at next level, right associativity) : py_scope.
Notation "m ;; k" := (bind m (fun _ => k))
  (at level 100, right associativity) : py_scope.
Open Scope py_scope.
Open Scope string_scope.
Open Scope Z_scope.
Open Scope list_scope.

(** The state once one more record is logged. *)
Definition logged (r : LogRecord) (w : World) : World :=
  {| active_entity := active_entity w;
     trace := trace w;
     log := log w ++ [r] |}.

Definition emit (lvl : Level) (msg : string) (exc : bool) : M unit :=
  fun w =>
    (Ok tt, logged {| levelname := lvl; message := msg; exc_info := exc |} w).

Definition logger_error (msg : string) (exc : bool) : M unit := emit ERROR msg exc.
Definition logger_info (msg : string) : M unit := emit INFO msg false.
Definition logger_debug (msg : string) : M unit := emit DEBUG msg false.

(** [f"{state}"] for an [int]. *)
Definition format_int (z : Z) : string := NilZero.string_of_int (Z.to_int z).

(* ===================================================================== *)
(** * The proxy models *)
(* ===================================================================== *)

(** A [QStandardItem]: what [item.data(role)] answers. *)
Record QStandardItem : Type := {
  item_data : ItemDataRole -> result PyVal }.

(** The source model behind a proxy, by what its methods answer. *)
Record SourceModel : Type := {
  sm_index : Z -> Z -> QModelIndex -> result QModelIndex;
  sm_data : QModelIndex -> ItemDataRole -> result PyVal;
  (** [itemFromIndex] answers [None] where the model has no item. *)
  sm_itemFromIndex : QModelIndex -> result (option QStandardItem) }.

(** A [QSortFilterProxyModel] as seen from the methods overriding it:
    [sourceModel()] ([None] while no source is set), the proxy's own
    [rowCount()], [index(row, column)] and [data(index, role)] over the rows
    it currently shows, and the base class's [filterAcceptsRow]. *)
Record ProxyModel : Type := {
  sourceModel : result (option SourceModel);
  rowCount : result Z;
  index : Z -> Z -> result QModelIndex;
  data : QModelIndex -> ItemDataRole -> result PyVal;
  super_filterAcceptsRow : Z -> QModelIndex -> result bool }.

Definition no_attribute (obj attr : string) : exn :=
  AttributeError ("'" ++ obj ++ "' object has no attribute '" ++ attr ++ "'").

(** [source_model.itemFromIndex(ix).data(role)]: the attribute lookup on
    [None] raises. *)
Definition item_value (sm : SourceModel) (ix : QModelIndex) (role : ItemDataRole)
  : result PyVal :=
  match sm_itemFromIndex sm ix with
  | Raise e => Raise e
  | Ok None => Raise (no_attribute "NoneType" "data")
  | Ok (Some item) => item_data item role
  end.

Definition the_source (self : ProxyModel) (attr : string) : result SourceModel :=
  match sourceModel self with
  | Raise e => Raise e
  | Ok None => Raise (no_attribute "NoneType" attr)
  | Ok (Some sm) => Ok sm
  end.

(** [AlphaProxyModel.lessThan] (dialog.py, lines 43-57). *)
Definition lessThan (self : ProxyModel) (left right : QModelIndex) : M bool :=
  source_model <- ask (the_source self "itemFromIndex") ;;
  lvalue <- ask (item_value source_model left DisplayRole) ;;
  rvalue <- ask (item_value source_model right DisplayRole) ;;
  ask (py_lt lvalue rvalue).

(** The loop of [filterAcceptsRow] over [range(self.rowCount())]: [true]
    as soon as a shown row carries [content] (the [return False] inside the
    loop), [false] when the loop runs to its end. *)
Fixpoint already_in_view (self : ProxyModel) (content : PyVal) (rows : list Z)
  : M bool :=
  match rows with
  | [] => ret false
  | row :: rest =>
      index <- ask (index self row 0) ;;
      existing_content <- ask (data self index DisplayRole) ;;
      if py_eq content existing_content then ret true
      else already_in_view self content rest
  end.

(** The [try] block of [UniqueNameProxyModel.filterAcceptsRow]. *)
Definition filterAcceptsRow_try (self : ProxyModel) (source_row : Z)
    (source_parent : QModelIndex) : M bool :=
  source_model <- ask (the_source self "index") ;;
  content_index <- ask (sm_index source_model source_row 0 source_parent) ;;
  content <- ask (sm_data source_model content_index DisplayRole) ;;
  n <- ask (rowCount self) ;;
  dup <- already_in_view self content (py_range n) ;;
  if dup then ret false
  else ask (super_filterAcceptsRow self source_row source_parent).

(** [UniqueNameProxyModel.filterAcceptsRow] (dialog.py, lines 64-88). *)
Definition filterAcceptsRow (self : ProxyModel) (source_row : Z)
    (source_parent : QModelIndex) : M bool :=
  try_except (filterAcceptsRow_try self source_row source_parent)
    (fun e =>
       logger_error ("An error occurred while filtering content: " ++ exn_str e) true ;;
       ret false).

(* ===================================================================== *)
(** * The dialog controller *)
(* ===================================================================== *)

(** A [QItemSelection], by what [indexes()] answers. *)
Record QItemSelection : Type := {
  indexes : result (list QModelIndex) }.

(** What the host answers to the dialog: the value the entity proxy holds
    at an index, whether a call raises (and what), the proxy's current
    dynamic-sort flag and the project of the running context.  Answers may
    depend on everything that happened before. *)
Record Host : Type := {
  entity_proxy_data : QModelIndex -> ItemDataRole -> World -> result PyVal;
  raises : Call -> World -> option exn;
  tasks_proxy_dynamicSortFilter : World -> result bool;
  context_project : PyVal }.

(** The state of a dialog object on which nothing has run yet. *)
Definition new_dialog : World :=
  {| active_entity := None; trace := []; log := [] |}.

(** The state once [self.active_entity] is assigned. *)
Definition with_entity (v : PyVal) (w : World) : World :=
  {| active_entity := Some v; trace := trace w; log := log w |}.

(** The state once a call and its outcome are on the trace. *)
Definition recorded (c : Call) (o : option exn) (w : World) : World :=
  {| active_entity := active_entity w;
     trace := trace w ++ [(c, o)];
     log := log w |}.

Definition set_active_entity (v : PyVal) : M unit :=
  fun w => (Ok tt, with_entity v w).

(** Reading [self.active_entity]. *)
Definition get_active_entity : M PyVal :=
  fun w =>
    match active_entity w with
    | Some v => (Ok v, w)
    | None => (Raise (no_attribute "AppDialog" "active_entity"), w)
    end.

Section Controller.

Variable host : Host.

(** Issue a call: it is recorded with its outcome, and raises if the host
    says so. *)
Definition call (c : Call) : M unit :=
  fun w =>
    let o := raises host c w in
    match o with
    | None => (Ok tt, recorded c o w)
    | Some e => (Raise e, recorded c o w)
    end.

(** [AppDialog.__init__] (dialog.py, lines 96-150). *)
Definition init : M unit :=
  call ui_setupUi ;;
  logger_info "Launching Test App..." ;;
  call (tree_setIndentation 16) ;;
  call (tree_setUniformRowHeights true) ;;
  call (tree_setSortingEnabled true) ;;
  call (tree_sortByColumn 0 AscendingOrder) ;;
  call (entity_model_create "Asset"
          [{| f_field := "project"; f_op := "is"; f_value := context_project host |}]
          ["project.Project.name"; "sg_asset_type"; "code"]
          ["description"; "id"; "project"; "sg_asset_type"]) ;;
  call entity_model_async_refresh ;;
  call entity_proxy_create ;;
  call (entity_proxy_setDynamicSortFilter true) ;;
  call entity_proxy_setSourceModel ;;
  call tree_setModel ;;
  call (connect selectionChanged slot_handle_asset_selection) ;;
  call tasks_model_create ;;
  call (connect data_refreshed slot_on_task_data_refreshed) ;;
  call tasks_proxy_create ;;
  call (tasks_proxy_setDynamicSortFilter 1) ;;
  call tasks_proxy_setSourceModel ;;
  call list_setModel ;;
  call (connect refresh_clicked slot_load_task_data) ;;
  call (connect clear_cache_clicked slot_hard_refresh) ;;
  checked <- (fun w => (tasks_proxy_dynamicSortFilter host w, w)) ;;
  call (checkbox_setChecked checked) ;;
  call (connect stateChanged slot_on_dynamic_sort_changed).

(** [AppDialog.destroy] (lines 152-161). *)
Definition destroy : M unit :=
  try_except
    (call entity_model_destroy ;;
     call tasks_model_destroy)
    (fun _ => ret tt).

(** [AppDialog.load_task_data] (lines 186-199).  The arguments are built
    before [_load_data] is entered, so [self.active_entity] is read first. *)
Definition load_task_data : M unit :=
  entity <- get_active_entity ;;
  call (tasks_model_load_data "Task"
          ["content"; "sg_task_token"; "step.Step.short_name"]
          [{| f_field := "entity"; f_op := "is"; f_value := entity |}]
          ["content"]) ;;
  call tasks_model_refresh_data.

(** [AppDialog.handle_asset_selection] (lines 163-184). *)
Definition handle_asset_selection (selected deselected : QItemSelection) : M unit :=
  try_except
    (ixs <- ask (indexes selected) ;;
     match ixs with
     | [] => ret tt
     | index :: _ =>
         entity <- (fun w => (entity_proxy_data host index SG_DATA_ROLE w, w)) ;;
         set_active_entity entity ;;
         load_task_data
     end)
    (fun e =>
       logger_error ("*** Error selecting source task: " ++ exn_str e) false).

(** The record [handle_asset_selection] logs for an exception. *)
Definition selection_error (e : exn) : LogRecord :=
  {| levelname := ERROR;
     message := "*** Error selecting source task: " ++ exn_str e;
     exc_info := false |}.

(** [AppDialog.on_task_data_refreshed] (lines 201-202). *)
Definition on_task_data_refreshed : M unit :=
  call (tasks_proxy_sort 0 AscendingOrder).

(** [AppDialog.clear_cache] (lines 204-206). *)
Definition clear_cache : M unit :=
  call tasks_model_clear ;;
  call tasks_model_refresh_data.

(** [AppDialog.on_dynamic_sort_changed] (lines 208-211). *)
Definition on_dynamic_sort_changed (state : Z) : M unit :=
  logger_debug ("*** _entity_tasks_proxy_model setDynamicSortFilter: "
                  ++ format_int state) ;;
  call (tasks_proxy_setDynamicSortFilter state) ;;
  call tasks_model_refresh_data.

(** ** Signals *)

Inductive UiEvent : Type :=
| ev_selectionChanged (selected deselected : QItemSelection)
| ev_data_refreshed
| ev_refresh_clicked
| ev_clear_cache_clicked
| ev_stateChanged (state : Z).

Definition signal_of (ev : UiEvent) : Signal :=
  match ev with
  | ev_selectionChanged _ _ => selectionChanged
  | ev_data_refreshed => data_refreshed
  | ev_refresh_clicked => refresh_clicked
  | ev_clear_cache_clicked => clear_cache_clicked
  | ev_stateChanged _ => stateChanged
  end.

Definition Signal_eqb (a b : Signal) : bool :=
  match a, b with
  | selectionChanged, selectionChanged
  | data_refreshed, data_refreshed
  | refresh_clicked, refresh_clicked
  | clear_cache_clicked, clear_cache_clicked
  | stateChanged, stateChanged => true
  | _, _ => false
  end.

(** The slots a signal reaches: the [connect] calls that went through, in
    the order they were made. *)
Definition slots_of (sig : Signal) (w : World) : list Slot :=
  flat_map
    (fun co =>
       match co with
       | (connect s slot, None) => if Signal_eqb s sig then [slot] else []
       | _ => []
       end)
    (trace w).

(** Running a slot on an event.  A slot of the dialog is the bound method;
    [slot_hard_refresh] is the tasks model's own [hard_refresh]. *)
Definition run_slot (slot : Slot) (ev : UiEvent) : M unit :=
  match slot, ev with
  | slot_handle_asset_selection, ev_selectionChanged selected deselected =>
      handle_asset_selection selected deselected
  | slot_handle_asset_selection, _ =>
      raise (TypeError "handle_asset_selection() missing required positional arguments")
  | slot_on_task_data_refreshed, _ => on_task_data_refreshed
  | slot_load_task_data, _ => load_task_data
  | slot_hard_refresh, _ => call tasks_model_hard_refresh
  | slot_on_dynamic_sort_changed, ev_stateChanged state =>
      on_dynamic_sort_changed state
  | slot_on_dynamic_sort_changed, _ =>
      raise (TypeError "on_dynamic_sort_changed() missing required positional argument")
  end.

(** Delivering an event: every connected slot runs; what a slot raises is
    not caught by the dialog and is reported by the event loop, which goes
    on.  The outcomes are returned slot by slot. *)
Fixpoint run_slots (slots : list Slot) (ev : UiEvent) (w : World)
  : list (result unit) * World :=
  match slots with
  | [] => ([], w)
  | slot :: rest =>
      let (r, w') := run_slot slot ev w in
      let (rs, w'') := run_slots rest ev w' in
      (r :: rs, w'')
  end.

Definition deliver (ev : UiEvent) (w : World) : list (result unit) * World :=
  run_slots (slots_of (signal_of ev) w) ev w.

Fixpoint run_events (evs : list UiEvent) (w : World) : World :=
  match evs with
  | [] => w
  | ev :: rest => run_events rest (snd (deliver ev w))
  end.

(** An event that gives the dialog an active entity when it arrives in
    state [w]: a selection change whose [indexes()] is a non-empty list and
    whose first index the entity proxy answers for. *)
Definition selects (ev : UiEvent) (w : World) : Prop :=
  match ev with
  | ev_selectionChanged selected _ =>
      exists index rest v,
        indexes selected = Ok (index :: rest)
        /\ entity_proxy_data host index SG_DATA_ROLE w = Ok v
  | _ => False
  end.

(** None of the events [evs], delivered in turn from state [w], selects. *)
Fixpoint none_selects (evs : list UiEvent) (w : World) : Prop :=
  match evs with
  | [] => True
  | ev :: rest => ~ selects ev w /\ none_selects rest (snd (deliver ev w))
  end.

(** The connections [__init__] makes. *)
Definition wired (sig : Signal) : Slot :=
  match sig with
  | selectionChanged => slot_handle_asset_selection
  | data_refreshed => slot_on_task_data_refreshed
  | refresh_clicked => slot_load_task_data
  | clear_cache_clicked => slot_hard_refresh
  | stateChanged => slot_on_dynamic_sort_changed
  end.

End Controller.

(** ** What a method leaves alone *)

Definition same_entity (w w' : World) : Prop :=
  active_entity w' = active_entity w.

Definition same_wiring (w w' : World) : Prop :=
  forall sig, slots_of sig w' = slots_of sig w.

(** [m] relates every state to the state it leaves, by [R]. *)
Definition preserves {A} (R : World -> World -> Prop) (m : M A) : Prop :=
  forall w, R w (snd (m w)).

Definition is_connect (c : Call) : bool :=
  match c with
  | connect _ _ => true
  | _ => false
  end.

(* ===================================================================== *)
(** * A reference host *)
(* ===================================================================== *)

(** The properties of the specification about what the user sees (the Task
    list after a refresh) speak of the host as much as of the dialog.  The
    item models of Qt and the Shotgun model framework are not in the
    repository; the definitions of this part model them from sections 4.2,
    4.3 and 6 of the specification, over lists: a source model holding one
    row per fetched record, a proxy showing some of the source rows, rows
    offered to [filterAcceptsRow] one after the other, and a sort that asks
    [lessThan].  The methods of the repository are used as defined above. *)

(** What reading the display value of a source row gives: a value, or an
    exception for a row that cannot be read. *)
Definition Rows : Type := list (result PyVal).

Definition in_rows {A} (l : list A) (r : Z) : bool :=
  (0 <=? r) && (r <? Z.of_nat (List.length l)).

(** Modelled from the spec: the display value the source model (not in the
    repository) holds for source row [r]; an index outside the model has
    [None]. *)
Definition row_text (rows : Rows) (r : Z) : result PyVal :=
  if in_rows rows r then nth (Z.to_nat r) rows (Ok PyNone) else Ok PyNone.

Definition role_value (role : ItemDataRole) (v : result PyVal) : result PyVal :=
  match role with
  | DisplayRole => v
  | SG_DATA_ROLE => Ok PyNone
  end.

(** Modelled from the spec: the source model (a [QStandardItemModel] of the
    host, not in the repository) over the rows [rows], one column wide. *)
Definition list_source (rows : Rows) : SourceModel :=
  {| sm_index := fun r c _ =>
       Ok (if in_rows rows r && (c =? 0) then IndexAt r c else InvalidIndex);
     sm_data := fun ix role =>
       match ix with
       | IndexAt r _ => role_value role (row_text rows r)
       | InvalidIndex => Ok PyNone
       end;
     sm_itemFromIndex := fun ix =>
       match ix with
       | IndexAt r _ =>
           if in_rows rows r
           then Ok (Some {| item_data := fun role => role_value role (row_text rows r) |})
           else Ok None
       | InvalidIndex => Ok None
       end |}.

(** Modelled from the spec: the [QSortFilterProxyModel] of the host (not in
    the repository) over [rows], currently showing the source rows
    [visible], in that order, with [base] as the base class's
    [filterAcceptsRow]. *)
Definition list_proxy (rows : Rows) (visible : list Z)
    (base : Z -> QModelIndex -> result bool) : ProxyModel :=
  {| sourceModel := Ok (Some (list_source rows));
     rowCount := Ok (Z.of_nat (List.length visible));
     index := fun r c =>
       Ok (if in_rows visible r && (c =? 0) then IndexAt r c else InvalidIndex);
     data := fun ix role =>
       match ix with
       | IndexAt r _ =>
           match nth_error visible (Z.to_nat r) with
           | Some source_row => role_value role (row_text rows source_row)
           | None => Ok PyNone
           end
       | InvalidIndex => Ok PyNone
       end;
     super_filterAcceptsRow := base |}.

(** Modelled from the spec: [QSortFilterProxyModel.filterAcceptsRow] (the
    base class, not in the repository) while no filter pattern is set; the
    dialog never sets one. *)
Definition stock_filterAcceptsRow (source_row : Z) (source_parent : QModelIndex)
  : result bool := Ok true.

(** Modelled from the spec: how the proxy (not in the repository) feeds rows
    through the filter.  Each candidate is offered to [filterAcceptsRow] of
    the proxy as it stands ("scan all rows currently accepted into the
    visible set"), and an accepted row joins the shown rows where [place]
    puts it. *)
Fixpoint feed (rows : Rows) (base : Z -> QModelIndex -> result bool)
    (place : Z -> list Z -> list Z) (candidates : list Z) (visible : list Z)
    (w : World) : list Z * World :=
  match candidates with
  | [] => (visible, w)
  | r :: rest =>
      match filterAcceptsRow (list_proxy rows visible base) r InvalidIndex w with
      | (Ok true, w') => feed rows base place rest (place r visible) w'
      | (_, w') => feed rows base place rest visible w'
      end
  end.

(** The displayed values of the shown rows. *)
Definition texts (rows : Rows) (visible : list Z) : list (result PyVal) :=
  map (row_text rows) visible.

(** A new row shown after the others. *)
Definition place_last (r : Z) (visible : list Z) : list Z := visible ++ [r].

(** The answer of [lessThan] on two source rows, as the sort uses it; a
    comparison that raises counts as "not less". *)
Definition row_less (rows : Rows) (visible : list Z) (a b : Z) : bool :=
  match fst (lessThan (list_proxy rows visible stock_filterAcceptsRow)
               (IndexAt a 0) (IndexAt b 0) new_dialog) with
  | Ok b => b
  | Raise _ => false
  end.

Fixpoint insert_row (less : Z -> Z -> bool) (r : Z) (sorted : list Z) : list Z :=
  match sorted with
  | [] => [r]
  | x :: rest => if less x r then x :: insert_row less r rest else r :: x :: rest
  end.

(** Modelled from the spec: the proxy's sort (not in the repository), a
    stable sort by [less]. *)
Definition sort_rows (less : Z -> Z -> bool) (l : list Z) : list Z :=
  fold_right (insert_row less) [] l.

(** Modelled from the spec: [proxy.sort(0, order)] of the host, which asks
    [lessThan] of the repository. *)
Definition proxy_sort (rows : Rows) (order : SortOrder) (visible : list Z) : list Z :=
  match order with
  | AscendingOrder => sort_rows (row_less rows visible) visible
  | DescendingOrder => sort_rows (fun a b => row_less rows visible b a) visible
  end.

(** A Task record of the tracking database: its parent entity and its
    content, the text it is displayed with. *)
Record Task : Type := {
  task_id : Z;
  task_entity : PyVal;
  task_content : str }.

(** Modelled from the spec: the filter [["entity", "is", v]] of the tracking
    database (not in the repository) keeps the Tasks whose parent entity is
    [v]; other filters are not interpreted. *)
Definition task_matches (t : Task) (f : Filter) : bool :=
  if String.eqb (f_field f) "entity" && String.eqb (f_op f) "is"
  then py_eq (f_value f) (task_entity t)
  else true.

(** Modelled from the spec: the records a query returns. *)
Definition fetch (db : list Task) (filters : list Filter) : list Task :=
  filter (fun t => forallb (task_matches t) filters) db.

(** Modelled from the spec: with [hierarchy=["content"]] the Task model shows
    one row per record, displayed by its content. *)
Definition display_rows (l : list Task) : Rows :=
  map (fun t => Ok (PyStr (task_content t))) l.

(** The host's side of the Task list: the filters of the last query, the
    rows of the Task model, the source rows the proxy shows (in order) and
    the proxy's dynamic-sort flag. *)
Record HostState : Type := {
  tasks_query : list Filter;
  tasks_rows : list Task;
  task_view : list Z;
  dynamicSortFilter : bool }.

(** Modelled from the spec: what a call of the dialog does to the host's
    Task list (the Shotgun model and the proxy are not in the repository).
    A query discards the rows of the previous one; a refresh request is
    answered later ([refresh_completes]); a sort on column 0 reorders the
    shown rows; the dynamic-sort flag takes the truth value of [state]. *)
Definition host_step (c : Call) (h : HostState) : HostState :=
  match c with
  | tasks_model_load_data _ _ filters _ =>
      {| tasks_query := filters; tasks_rows := []; task_view := [];
         dynamicSortFilter := dynamicSortFilter h |}
  | tasks_model_clear =>
      {| tasks_query := tasks_query h; tasks_rows := []; task_view := [];
         dynamicSortFilter := dynamicSortFilter h |}
  | tasks_proxy_sort column order =>
      if column =? 0
      then {| tasks_query := tasks_query h; tasks_rows := tasks_rows h;
              task_view := proxy_sort (display_rows (tasks_rows h)) order (task_view h);
              dynamicSortFilter := dynamicSortFilter h |}
      else h
  | tasks_proxy_setDynamicSortFilter state =>
      {| tasks_query := tasks_query h; tasks_rows := tasks_rows h;
         task_view := task_view h;
         dynamicSortFilter := negb (state =? 0) |}
  | _ => h
  end.

(** The host acting on the calls of a trace that went through. *)
Definition host_replay (calls : list (Call * option exn)) (h : HostState) : HostState :=
  fold_left
    (fun h co => match co with (c, None) => host_step c h | (_, Some _) => h end)
    calls h.

(** The calls a method added to the trace. *)
Definition issued (before after : World) : list (Call * option exn) :=
  skipn (List.length (trace before)) (trace after).

(** Modelled from the spec: a refresh completes.  The Task model holds the
    records of the query, and the proxy is offered its rows from the first
    to the last. *)
Definition refresh_completes (db : list Task) (h : HostState) : HostState :=
  let fetched := fetch db (tasks_query h) in
  {| tasks_query := tasks_query h;
     tasks_rows := fetched;
     task_view :=
       fst (feed (display_rows fetched) stock_filterAcceptsRow place_last
              (py_range (Z.of_nat (List.length fetched))) [] new_dialog);
     dynamicSortFilter := dynamicSortFilter h |}.

(** The Tasks shown, in the order of the view. *)
Definition view_tasks (h : HostState) : list Task :=
  flat_map
    (fun r => if in_rows (tasks_rows h) r
              then match nth_error (tasks_rows h) (Z.to_nat r) with
                   | Some t => [t]
                   | None => []
                   end
              else [])
    (task_view h).

Definition refresh_requests (calls : list (Call * option exn)) : nat :=
  List.length (filter (fun co => match fst co with
                            | tasks_model_refresh_data => true
                            | _ => false
                            end) calls).

(** ** Where an exception can arise in [filterAcceptsRow]

    The stages of the method, stated from its text rather than from its
    embedding: [raised_while_filtering self row parent e] holds when the
    host's answers make the stage raise [e] and every earlier stage passes. *)
Inductive scanned (self : ProxyModel) (content : PyVal) : list Z -> Prop :=
| scanned_nil : scanned self content []
| scanned_cons (row : Z) (rest : list Z) (ix : QModelIndex) (existing : PyVal) :
    index self row 0 = Ok ix ->
    data self ix DisplayRole = Ok existing ->
    py_eq content existing = false ->
    scanned self content rest ->
    scanned self content (row :: rest).

Inductive raised_while_filtering (self : ProxyModel) (source_row : Z)
    (source_parent : QModelIndex) : exn -> Prop :=
| raised_sourceModel e :
    sourceModel self = Raise e ->
    raised_while_filtering self source_row source_parent e
| raised_no_source :
    sourceModel self = Ok None ->
    raised_while_filtering self source_row source_parent
      (no_attribute "NoneType" "index")
| raised_source_index sm e :
    sourceModel self = Ok (Some sm) ->
    sm_index sm source_row 0 source_parent = Raise e ->
    raised_while_filtering self source_row source_parent e
| raised_source_data sm cix e :
    sourceModel self = Ok (Some sm) ->
    sm_index sm source_row 0 source_parent = Ok cix ->
    sm_data sm cix DisplayRole = Raise e ->
    raised_while_filtering self source_row source_parent e
| raised_rowCount sm cix content e :
    sourceModel self = Ok (Some sm) ->
    sm_index sm source_row 0 source_parent = Ok cix ->
    sm_data sm cix DisplayRole = Ok content ->
    rowCount self = Raise e ->
    raised_while_filtering self source_row source_parent e
| raised_proxy_index sm cix content n before row after e :
    sourceModel self = Ok (Some sm) ->
    sm_index sm source_row 0 source_parent = Ok cix ->
    sm_data sm cix DisplayRole = Ok content ->
    rowCount self = Ok n ->
    py_range n = before ++ row :: after ->
    scanned self content before ->
    index self row 0 = Raise e ->
    raised_while_filtering self source_row source_parent e
| raised_proxy_data sm cix content n before row after ix e :
    sourceModel self = Ok (Some sm) ->
    sm_index sm source_row 0 source_parent = Ok cix ->
    sm_data sm cix DisplayRole = Ok content ->
    rowCount self = Ok n ->
    py_range n = before ++ row :: after ->
    scanned self content before ->
    index self row 0 = Ok ix ->
    data self ix DisplayRole = Raise e ->
    raised_while_filtering self source_row source_parent e
| raised_super sm cix content n e :
    sourceModel self = Ok (Some sm) ->
    sm_index sm source_row 0 source_parent = Ok cix ->
    sm_data sm cix DisplayRole = Ok content ->
    rowCount self = Ok n ->
    scanned self content (py_range n) ->
    super_filterAcceptsRow self source_row source_parent = Raise e ->
    raised_while_filtering self source_row source_parent e.

(** ** The filter over a list-backed proxy *)

(** The loop of [filterAcceptsRow] read on the displayed values of the
    shown rows, first to last. *)
Fixpoint scan_texts (content : PyVal) (shown : list (result PyVal)) : result bool :=
  match shown with
  | [] => Ok false
  | Ok existing :: rest =>
      if py_eq content existing then Ok true else scan_texts content rest
  | Raise e :: _ => Raise e
  end.

(** A source row whose display value can be read. *)
Definition readable (rows : Rows) (r : Z) : Prop :=
  exists v, row_text rows r = Ok v.

(** Readable shown rows, no two of which display the same value. *)
Definition unique_view (rows : Rows) (visible : list Z) : Prop :=
  Forall (readable rows) visible /\ NoDup (texts rows visible).

(** A candidate that displays [v] and that the base class's filter lets
    through. *)
Definition eligible (rows : Rows) (base : Z -> QModelIndex -> result bool)
    (v : PyVal) (r : Z) : Prop :=
  row_text rows r = Ok v /\ base r InvalidIndex = Ok true.

(** The record [filterAcceptsRow] logs for an exception. *)
Definition filter_error (e : exn) : LogRecord :=
  {| levelname := ERROR;
     message := "An error occurred while filtering content: " ++ exn_str e;
     exc_info := true |}.

(** The text a source row displays, for the rows that display one. *)
Definition row_key (rows : Rows) (r : Z) : str :=
  match row_text rows r with
  | Ok (PyStr s) => s
  | _ => []
  end.

(** Comparing rows by a text each of them carries: [<] on the texts, and
    "the second is not below the first". *)
Definition key_less (key : Z -> str) (a b : Z) : bool :=
  str_ltb (key a) (key b).

Definition key_not_above (key : Z -> str) (a b : Z) : Prop :=
  str_ltb (key b) (key a) = false.

(** A source row that holds an item displaying a text. *)
Definition shows_text (rows : Rows) (r : Z) : Prop :=
  in_rows rows r = true /\ exists s, row_text rows r = Ok (PyStr s).

(** Tasks in strictly ascending order of content. *)
Definition content_below (a b : Task) : Prop :=
  lex_lt (task_content a) (task_content b).

Definition no_task : Task :=
  {| task_id := 0; task_entity := PyNone; task_content := [] |}.

(** The Task a source row of the Task model stands for. *)
Definition task_at (l : list Task) (r : Z) : Task := nth (Z.to_nat r) l no_task.

(** A refresh completes and the dialog is notified: the host refills the
    Task model and the proxy, then acts on the calls
    [on_task_data_refreshed] issued. *)
Definition refresh_and_notify (host : Host) (db : list Task)
    (wh : World * HostState) : World * HostState :=
  let h1 := refresh_completes db (snd wh) in
  let w1 := snd (on_task_data_refreshed host (fst wh)) in
  (w1, host_replay (issued (fst wh) w1) h1).

(** ** Sample data *)

Definition asset_a : Entity := {| entity_type := "Asset"; entity_id := 1 |}.
Definition asset_b : Entity := {| entity_type := "Asset"; entity_id := 2 |}.

Definition project_1 : Entity := {| entity_type := "Project"; entity_id := 70 |}.

(** A host on which no call raises and whose entity proxy answers
    [asset_b] everywhere. *)
Definition quiet_host : Host :=
  {| entity_proxy_data := fun _ _ _ => Ok (PyEntity asset_b);
     raises := fun _ _ => None;
     tasks_proxy_dynamicSortFilter := fun _ => Ok true;
     context_project := PyEntity project_1 |}.

(** A host whose Task model refuses every query. *)
Definition load_fails_host : Host :=
  {| entity_proxy_data := fun _ _ _ => Ok (PyEntity asset_b);
     raises := fun c _ =>
       match c with
       | tasks_model_load_data _ _ _ _ => Some (RuntimeError "query refused")
       | _ => None
       end;
     tasks_proxy_dynamicSortFilter := fun _ => Ok true;
     context_project := PyEntity project_1 |}.

(** A host whose entity proxy cannot be read. *)
Definition data_fails_host : Host :=
  {| entity_proxy_data := fun _ _ _ => Raise (RuntimeError "index out of date");
     raises := fun _ _ => None;
     tasks_proxy_dynamicSortFilter := fun _ => Ok true;
     context_project := PyEntity project_1 |}.

(** A host whose entity model fails to release. *)
Definition destroy_fails_host : Host :=
  {| entity_proxy_data := fun _ _ _ => Ok (PyEntity asset_b);
     raises := fun c _ =>
       match c with
       | entity_model_destroy => Some (RuntimeError "worker still running")
       | _ => None
       end;
     tasks_proxy_dynamicSortFilter := fun _ => Ok true;
     context_project := PyEntity project_1 |}.

(** A dialog on which [asset_a] was selected earlier. *)
Definition after_asset_a : World :=
  {| active_entity := Some (PyEntity asset_a); trace := []; log := [] |}.

Definition select_one : QItemSelection := {| indexes := Ok [IndexAt 0 0] |}.
Definition select_none : QItemSelection := {| indexes := Ok [] |}.

(** Tasks of two assets; two of [asset_b]'s carry the same content. *)
Definition sample_db : list Task :=
  [ {| task_id := 1; task_entity := PyEntity asset_b; task_content := lit "rig" |};
    {| task_id := 2; task_entity := PyEntity asset_a; task_content := lit "model" |};
    {| task_id := 3; task_entity := PyEntity asset_b; task_content := lit "Paint" |};
    {| task_id := 4; task_entity := PyEntity asset_b; task_content := lit "rig" |};
    {| task_id := 5; task_entity := PyEntity asset_b; task_content := lit "paint" |} ].

Definition no_host_state : HostState :=
  {| tasks_query := []; tasks_rows := []; task_view := [];
     dynamicSortFilter := true |}.

(** The scenario of the specification: three Tasks displayed as "paint",
    "Paint" and "rig". *)
Definition paint_rows : Rows :=
  [Ok (PyStr (lit "paint")); Ok (PyStr (lit "Paint")); Ok (PyStr (lit "rig"))].

(** Source rows where the third repeats the text of the first. *)
Definition repeated_rows : Rows :=
  [Ok (PyStr (lit "paint")); Ok (PyStr (lit "rig")); Ok (PyStr (lit "paint"))].

(** A proxy whose second shown row cannot be read. *)
Definition broken_proxy : ProxyModel :=
  {| sourceModel := Ok (Some (list_source paint_rows));
     rowCount := Ok 2;
     index := fun r c => Ok (IndexAt r c);
     data := fun ix role =>
       match ix with
       | IndexAt 0 _ => Ok (PyStr (lit "rig"))
       | _ => Raise (RuntimeError "Internal C++ object already deleted.")
       end;
     super_filterAcceptsRow := stock_filterAcceptsRow |}.

(* ===================================================================== *)
(** * The methods taken together *)
(* ===================================================================== *)

Definition is_str (v : PyVal) : bool :=
  match v with
  | PyStr _ => true
  | _ => false
  end.

(** The source model holds an item at [ix], and the item displays the
    text [a]. *)
Definition shows_str (sm : SourceModel) (ix : QModelIndex) (a : str) : Prop :=
  exists item,
    sm_itemFromIndex sm ix = Ok (Some item)
    /\ item_data item DisplayRole = Ok (PyStr a).

(** The query [load_task_data] issues for the active entity [v]. *)
Definition task_query (v : PyVal) : Call :=
  tasks_model_load_data "Task"
    ["content"; "sg_task_token"; "step.Step.short_name"]
    [{| f_field := "entity"; f_op := "is"; f_value := v |}]
    ["content"].

(** The methods of [AppDialog], by name. *)
Inductive Method : Type :=
| m_init
| m_destroy
| m_handle_asset_selection (selected deselected : QItemSelection)
| m_load_task_data
| m_on_task_data_refreshed
| m_clear_cache
| m_on_dynamic_sort_changed (state : Z).

Definition run_method (host : Host) (m : Method) : M unit :=
  match m with
  | m_init => init host
  | m_destroy => destroy host
  | m_handle_asset_selection selected deselected =>
      handle_asset_selection host selected deselected
  | m_load_task_data => load_task_data host
  | m_on_task_data_refreshed => on_task_data_refreshed host
  | m_clear_cache => clear_cache host
  | m_on_dynamic_sort_changed state => on_dynamic_sort_changed host state
  end.

(** The methods whose body is a [try] block with an [except Exception]. *)
Definition guarded (m : Method) : bool :=
  match m with
  | m_destroy | m_handle_asset_selection _ _ => true
  | _ => false
  end.

(** A call on the trace that did not raise. *)
Definition went_through (co : Call * option exn) : Prop := snd co = None.

(** Calls of which none raised, except possibly the last. *)
Definition stops_at_failure (l : list (Call * option exn)) : Prop :=
  exists l0,
    Forall went_through l0
    /\ (l = l0 \/ exists c e, l = l0 ++ [(c, Some e)]).

(** A computation that issues no call after one of its calls raised, and
    raises what that call raised. *)
Definition stops_when_raised {A} (m : M A) : Prop :=
  forall w,
  exists l,
    trace (snd (m w)) = trace w ++ l
    /\ match fst (m w) with
       | Ok _ => Forall went_through l
       | Raise e =>
           Forall went_through l
           \/ exists l0 c, l = l0 ++ [(c, Some e)] /\ Forall went_through l0
       end.

(** The calls the handlers of events issue. *)
Definition event_call (c : Call) : bool :=
  match c with
  | tasks_model_load_data _ _ _ _ | tasks_model_refresh_data
  | tasks_model_hard_refresh | tasks_proxy_sort _ _
  | tasks_proxy_setDynamicSortFilter _ => true
  | _ => false
  end.

(** From [w] to [w'] only calls of the handlers were issued. *)
Definition only_event_calls (w w' : World) : Prop :=
  exists l,
    trace w' = trace w ++ l
    /\ Forall (fun co => event_call (fst co) = true) l.

(** The attribute [active_entity], if it exists in [w], exists in [w']. *)
Definition entity_kept (w w' : World) : Prop :=
  active_entity w <> None -> active_entity w' <> None.

(** ** More sample data *)

(** Source rows the first of which displays nothing. *)
Definition untitled_rows : Rows :=
  [Ok PyNone; Ok (PyStr (lit "rig"))].

(** A host whose proxy refuses the dynamic-sort flag. *)
Definition flag_fails_host : Host :=
  {| entity_proxy_data := fun _ _ _ => Ok (PyEntity asset_b);
     raises := fun c _ =>
       match c with
       | tasks_proxy_setDynamicSortFilter _ => Some (TypeError "setDynamicSortFilter(bool)")
       | _ => None
       end;
     tasks_proxy_dynamicSortFilter := fun _ => Ok true;
     context_project := PyEntity project_1 |}.

(** A dialog that was constructed and on which [asset_b] was selected. *)
Definition selected_dialog : World :=
  snd (handle_asset_selection quiet_host select_one select_none
         (snd (init quiet_host new_dialog))).

(** A selection whose [indexes()] raises. *)
Definition broken_selection : QItemSelection :=
  {| indexes := Raise (RuntimeError "Internal C++ object already deleted.") |}.

(* ===================================================================== *)
(** * Python values: equality and order *)
(* ===================================================================== *)

Lemma str_eqb_eq (a b : str) : str_eqb a b = true <-> a = b.
Proof.
  revert b; induction a as [|x a IH]; intros [|y b]; simpl;
    try (split; [discriminate | discriminate]); try tauto.
  rewrite andb_true_iff, N.eqb_eq, IH.
  split; [intros [-> ->]; reflexivity | intros H; inversion H; auto].
Qed.

Lemma Entity_eqb_eq (a b : Entity) : Entity_eqb a b = true <-> a = b.
Proof.
  destruct a as [ta ia], b as [tb ib]; unfold Entity_eqb; simpl.
  rewrite andb_true_iff, String.eqb_eq, Z.eqb_eq.
  split; [intros [-> ->]; reflexivity | intros H; inversion H; auto].
Qed.

Lemma py_eq_eq (a b : PyVal) : py_eq a b = true <-> a = b.
Proof.
  destruct a, b; simpl; try (split; [discriminate | discriminate]); try tauto.
  - rewrite str_eqb_eq. split; [intros ->; reflexivity | intros H; inversion H; auto].
  - rewrite Entity_eqb_eq. split; [intros ->; reflexivity | intros H; inversion H; auto].
Qed.

Lemma py_eq_refl (a : PyVal) : py_eq a a = true.
Proof. apply py_eq_eq; reflexivity. Qed.

Lemma lex_lt_cons (x : N) (a b : str) : lex_lt a b -> lex_lt (x :: a) (x :: b).
Proof.
  intros H; destruct H as [p y t | p x' y s t Hxy].
  - exact (lex_lt_prefix (x :: p) y t).
  - exact (lex_lt_differ (x :: p) s t Hxy).
Qed.

Lemma str_ltb_complete (a b : str) : lex_lt a b -> str_ltb a b = true.
Proof.
  intros H; destruct H as [p y t | p x y s t Hxy].
  - induction p as [|c p IH]; simpl; [reflexivity|].
    rewrite N.ltb_irrefl, N.eqb_refl; exact IH.
  - induction p as [|c p IH]; simpl.
    + apply N.ltb_lt in Hxy; rewrite Hxy; reflexivity.
    + rewrite N.ltb_irrefl, N.eqb_refl; exact IH.
Qed.

Lemma str_ltb_sound (a b : str) : str_ltb a b = true -> lex_lt a b.
Proof.
  revert b; induction a as [|x a IH]; intros [|y b]; simpl; try discriminate.
  - intros _; exact (lex_lt_prefix [] y b).
  - destruct (N.ltb_spec x y) as [Hlt|Hge].
    + intros _; exact (lex_lt_differ [] a b Hlt).
    + destruct (N.eqb_spec x y) as [->|Hne]; [|discriminate].
      intros H; apply lex_lt_cons, IH, H.
Qed.

Lemma str_ltb_lex (a b : str) : str_ltb a b = true <-> lex_lt a b.
Proof. split; [apply str_ltb_sound | apply str_ltb_complete]. Qed.

(** "Not above" is transitive. *)
Lemma str_ltb_false_trans (a b c : str) :
  str_ltb b a = false -> str_ltb c b = false -> str_ltb c a = false.
Proof.
  revert b c; induction a as [|x a IH]; intros [|y b] [|z c]; simpl;
    try reflexivity; try discriminate.
  destruct (N.ltb_spec y x), (N.ltb_spec z y), (N.ltb_spec z x);
    destruct (N.eqb_spec y x), (N.eqb_spec z y), (N.eqb_spec z x);
    try discriminate; try lia; try reflexivity.
  apply IH.
Qed.

(** Two strings neither of which is below the other are equal. *)
Lemma str_ltb_total (a b : str) :
  str_ltb a b = false -> str_ltb b a = false -> a = b.
Proof.
  revert b; induction a as [|x a IH]; intros [|y b]; simpl;
    try reflexivity; try discriminate.
  destruct (N.ltb_spec x y), (N.ltb_spec y x);
    destruct (N.eqb_spec x y), (N.eqb_spec y x);
    try discriminate; try lia.
  intros H1 H2; subst; f_equal; apply IH; assumption.
Qed.

(* ===================================================================== *)
(** * AlphaProxyModel.lessThan *)
(* ===================================================================== *)

(** C2.  For two rows whose items exist in the source model and display the
    texts [a] and [b], [lessThan] returns, and returns [True] exactly when
    [a] is lexicographically below [b]; nothing changes: the state after
    the call is the state before it. *)
Theorem lessThan_lexicographic
    (self : ProxyModel) (sm : SourceModel) (left right : QModelIndex)
    (litem ritem : QStandardItem) (a b : str) (w : World) :
  sourceModel self = Ok (Some sm) ->
  sm_itemFromIndex sm left = Ok (Some litem) ->
  item_data litem DisplayRole = Ok (PyStr a) ->
  sm_itemFromIndex sm right = Ok (Some ritem) ->
  item_data ritem DisplayRole = Ok (PyStr b) ->
  exists r : bool,
    lessThan self left right w = (Ok r, w) /\ (r = true <-> lex_lt a b).
Proof.
  intros Hsm Hl Hla Hr Hrb.
  exists (str_ltb a b); split; [|apply str_ltb_lex].
  unfold lessThan, bind, ask, the_source, item_value.
  rewrite Hsm, Hl, Hla, Hr, Hrb; reflexivity.
Qed.

(** The comparison leaves the state alone whatever the host answers. *)
Lemma lessThan_reads_only (self : ProxyModel) (left right : QModelIndex) (w : World) :
  snd (lessThan self left right w) = w.
Proof.
  unfold lessThan, bind, ask.
  destruct (the_source self "itemFromIndex") as [sm|e]; simpl; [|reflexivity].
  destruct (item_value sm left DisplayRole); simpl; [|reflexivity].
  destruct (item_value sm right DisplayRole); reflexivity.
Qed.

Lemma lessThan_lexicographic_witness :
  exists r : bool,
    lessThan (list_proxy paint_rows [0; 1; 2] stock_filterAcceptsRow)
      (IndexAt 0 0) (IndexAt 2 0) new_dialog = (Ok r, new_dialog)
    /\ (r = true <-> lex_lt (lit "paint") (lit "rig")).
Proof.
  apply (@lessThan_lexicographic
           (list_proxy paint_rows [0; 1; 2] stock_filterAcceptsRow)
           (list_source paint_rows) (IndexAt 0 0) (IndexAt 2 0)
           {| item_data := fun role => role_value role (row_text paint_rows 0) |}
           {| item_data := fun role => role_value role (row_text paint_rows 2) |}
           (lit "paint") (lit "rig") new_dialog);
    reflexivity.
Defined.

(* ===================================================================== *)
(** * UniqueNameProxyModel.filterAcceptsRow *)
(* ===================================================================== *)

Lemma already_in_view_reads_only (self : ProxyModel) (content : PyVal)
    (rows : list Z) (w : World) :
  snd (already_in_view self content rows w) = w.
Proof.
  induction rows as [|row rest IH]; simpl; [reflexivity|].
  unfold bind, ask.
  destruct (index self row 0) as [ix|e]; simpl; [|reflexivity].
  destruct (data self ix DisplayRole) as [v|e]; simpl; [|reflexivity].
  destruct (py_eq content v); [reflexivity | exact IH].
Qed.

(** The loop passes over rows that can be read and hold another text. *)
Lemma already_in_view_scanned (self : ProxyModel) (content : PyVal)
    (before rest : list Z) (w : World) :
  scanned self content before ->
  already_in_view self content (before ++ rest) w
  = already_in_view self content rest w.
Proof.
  induction 1 as [|row before ix existing Hix Hdata Hne _ IH]; simpl; [reflexivity|].
  unfold bind, ask. rewrite Hix, Hdata, Hne. exact IH.
Qed.

Lemma already_in_view_false (self : ProxyModel) (content : PyVal)
    (rows : list Z) (w : World) :
  scanned self content rows ->
  already_in_view self content rows w = (Ok false, w).
Proof.
  intros H. rewrite <- (app_nil_r rows).
  rewrite (already_in_view_scanned _ w H). reflexivity.
Qed.

(** What the loop's outcome says of the shown rows. *)
Lemma already_in_view_cases (self : ProxyModel) (content : PyVal)
    (rows : list Z) (w : World) :
  match fst (already_in_view self content rows w) with
  | Ok false => scanned self content rows
  | Ok true =>
      exists before row after ix existing,
        rows = before ++ row :: after /\ scanned self content before /\
        index self row 0 = Ok ix /\ data self ix DisplayRole = Ok existing /\
        py_eq content existing = true
  | Raise e =>
      exists before row after,
        rows = before ++ row :: after /\ scanned self content before /\
        (index self row 0 = Raise e \/
         exists ix, index self row 0 = Ok ix /\ data self ix DisplayRole = Raise e)
  end.
Proof.
  induction rows as [|row rest IH]; simpl; [constructor|].
  unfold bind, ask.
  destruct (index self row 0) as [ix|e] eqn:Hix; simpl.
  2:{ exists [], row, rest; repeat split; [constructor | left; exact Hix]. }
  destruct (data self ix DisplayRole) as [v|e] eqn:Hdata; simpl.
  2:{ exists [], row, rest; repeat split; [constructor | right; eauto]. }
  destruct (py_eq content v) eqn:Heq; simpl.
  { exists [], row, rest, ix, v; repeat split; auto; constructor. }
  destruct (fst (already_in_view self content rest w)) as [[|]|e].
  - destruct IH as (before & r & after & ix' & ex & -> & Hs & H1 & H2 & H3).
    exists (row :: before), r, after, ix', ex; repeat split; auto.
    econstructor; eauto.
  - econstructor; eauto.
  - destruct IH as (before & r & after & -> & Hs & H).
    exists (row :: before), r, after; repeat split; auto.
    econstructor; eauto.
Qed.

(** The [try] block reads only. *)
Lemma filterAcceptsRow_try_reads_only (self : ProxyModel) (source_row : Z)
    (source_parent : QModelIndex) (w : World) :
  snd (filterAcceptsRow_try self source_row source_parent w) = w.
Proof.
  unfold filterAcceptsRow_try, bind, ask.
  destruct (the_source self "index") as [sm|e]; simpl; [|reflexivity].
  destruct (sm_index sm source_row 0 source_parent) as [cix|e]; simpl; [|reflexivity].
  destruct (sm_data sm cix DisplayRole) as [content|e]; simpl; [|reflexivity].
  destruct (rowCount self) as [n|e]; simpl; [|reflexivity].
  pose proof (already_in_view_reads_only self content (py_range n) w) as Hs.
  destruct (already_in_view self content (py_range n) w) as [[[|]|e] w'];
    simpl in *; subst; reflexivity.
Qed.

(** Every stage of [raised_while_filtering] makes the [try] block raise. *)
Lemma filterAcceptsRow_try_raises (self : ProxyModel) (source_row : Z)
    (source_parent : QModelIndex) (e : exn) (w : World) :
  raised_while_filtering self source_row source_parent e ->
  filterAcceptsRow_try self source_row source_parent w = (Raise e, w).
Proof.
  intros H; unfold filterAcceptsRow_try, bind, ask, the_source.
  destruct H as [e H | H | sm e H1 H2 | sm cix e H1 H2 H3
                | sm cix content e H1 H2 H3 H4
                | sm cix content n before row after e H1 H2 H3 H4 H5 H6 H7
                | sm cix content n before row after ix e H1 H2 H3 H4 H5 H6 H7 H8
                | sm cix content n e H1 H2 H3 H4 H5 H6].
  - rewrite H; reflexivity.
  - rewrite H; reflexivity.
  - rewrite H1, H2; reflexivity.
  - rewrite H1, H2, H3; reflexivity.
  - rewrite H1, H2, H3, H4; reflexivity.
  - rewrite H1, H2, H3, H4, H5, (already_in_view_scanned _ w H6); simpl.
    unfold bind, ask; rewrite H7; reflexivity.
  - rewrite H1, H2, H3, H4, H5, (already_in_view_scanned _ w H6); simpl.
    unfold bind, ask; rewrite H7, H8; reflexivity.
  - rewrite H1, H2, H3, H4, (already_in_view_false w H5), H6; reflexivity.
Qed.

(** And the [try] block raises at one of these stages only. *)
Lemma filterAcceptsRow_try_raised (self : ProxyModel) (source_row : Z)
    (source_parent : QModelIndex) (e : exn) (w w' : World) :
  filterAcceptsRow_try self source_row source_parent w = (Raise e, w') ->
  raised_while_filtering self source_row source_parent e.
Proof.
  unfold filterAcceptsRow_try, bind, ask, the_source.
  destruct (sourceModel self) as [[sm|]|e0] eqn:H1.
  2:{ intros H; inversion H; subst. apply raised_no_source; assumption. }
  2:{ intros H; inversion H; subst. apply raised_sourceModel; assumption. }
  destruct (sm_index sm source_row 0 source_parent) as [cix|e0] eqn:H2.
  2:{ intros H; inversion H; subst. eapply raised_source_index; eauto. }
  destruct (sm_data sm cix DisplayRole) as [content|e0] eqn:H3.
  2:{ intros H; inversion H; subst. eapply raised_source_data; eauto. }
  destruct (rowCount self) as [n|e0] eqn:H4.
  2:{ intros H; inversion H; subst. eapply raised_rowCount; eauto. }
  pose proof (already_in_view_cases self content (py_range n) w) as Hc.
  destruct (already_in_view self content (py_range n) w) as [[[|]|e0] w0];
    simpl in Hc.
  - discriminate.
  - intros H. destruct (super_filterAcceptsRow self source_row source_parent)
      as [b|e1] eqn:H5; inversion H; subst.
    eapply raised_super; eauto.
  - intros H; inversion H; subst.
    destruct Hc as (before & row & after & Hr & Hs & [Hi | (ix & Hi & Hd)]).
    + eapply raised_proxy_index; eauto.
    + eapply raised_proxy_data; eauto.
Qed.

(** [filterAcceptsRow] always returns a boolean: nothing propagates. *)
Lemma filterAcceptsRow_returns (self : ProxyModel) (source_row : Z)
    (source_parent : QModelIndex) (w : World) :
  exists (b : bool) (w' : World),
    filterAcceptsRow self source_row source_parent w = (Ok b, w').
Proof.
  unfold filterAcceptsRow, try_except.
  destruct (filterAcceptsRow_try self source_row source_parent w) as [[b|e] w'];
    [eauto | cbv [bind logger_error emit ret]; eauto].
Qed.

(** C4.  Whatever stage of [filterAcceptsRow] raises (the source model,
    the candidate's index or display value, the proxy's row count, the index
    or the display value of a shown row, the base class's filter), the
    method returns [False], having logged one error record that carries the
    exception's text and its traceback; nothing else changes. *)
Theorem filterAcceptsRow_fail_closed (self : ProxyModel) (source_row : Z)
    (source_parent : QModelIndex) (e : exn) (w : World) :
  raised_while_filtering self source_row source_parent e ->
  filterAcceptsRow self source_row source_parent w
  = (Ok false,
     logged {| levelname := ERROR;
               message := "An error occurred while filtering content: " ++ exn_str e;
               exc_info := true |} w).
Proof.
  intros H. unfold filterAcceptsRow, try_except.
  rewrite (filterAcceptsRow_try_raises w H). reflexivity.
Qed.

Lemma filterAcceptsRow_fail_closed_witness :
  filterAcceptsRow broken_proxy 0 InvalidIndex new_dialog
  = (Ok false,
     logged {| levelname := ERROR;
               message := "An error occurred while filtering content: "
                            ++ exn_str (RuntimeError "Internal C++ object already deleted.");
               exc_info := true |} new_dialog).
Proof.
  apply (@filterAcceptsRow_fail_closed broken_proxy 0 InvalidIndex
           (RuntimeError "Internal C++ object already deleted.") new_dialog).
  apply (@raised_proxy_data broken_proxy 0 InvalidIndex (list_source paint_rows)
           (IndexAt 0 0) (PyStr (lit "paint")) 2 [0] 1 [] (IndexAt 1 0));
    try reflexivity.
  apply (@scanned_cons broken_proxy (PyStr (lit "paint")) 0 [] (IndexAt 0 0)
           (PyStr (lit "rig"))); try reflexivity.
  constructor.
Defined.

(** ** The filter over a list-backed proxy *)

Lemma in_rows_spec {A} (l : list A) (r : Z) :
  in_rows l r = true <-> 0 <= r < Z.of_nat (List.length l).
Proof. unfold in_rows. rewrite andb_true_iff, Z.leb_le, Z.ltb_lt. tauto. Qed.

Lemma scan_texts_false (v : PyVal) (shown : list (result PyVal)) :
  scan_texts v shown = Ok false -> ~ In (Ok v) shown.
Proof.
  induction shown as [|[u|e] shown IH]; simpl; [tauto | | discriminate].
  destruct (py_eq v u) eqn:E; [discriminate|].
  intros H [Hu | Hin]; [|exact (IH H Hin)].
  inversion Hu; subst. rewrite py_eq_refl in E; discriminate.
Qed.

Lemma scan_texts_readable (v : PyVal) (shown : list (result PyVal)) :
  Forall (fun t => exists u, t = Ok u) shown ->
  ~ In (Ok v) shown ->
  scan_texts v shown = Ok false.
Proof.
  induction 1 as [|t shown [u ->] _ IH]; simpl; [reflexivity|].
  intros Hnin. destruct (py_eq v u) eqn:E.
  - apply py_eq_eq in E; subst. exfalso; apply Hnin; left; reflexivity.
  - apply IH; intros Hin; apply Hnin; right; exact Hin.
Qed.

(** The proxy's loop visits the shown rows in order. *)
Lemma already_in_view_list_from (rows : Rows) (base : Z -> QModelIndex -> result bool)
    (content : PyVal) (w : World) (post pre : list Z) :
  already_in_view (list_proxy rows (pre ++ post) base) content
    (map Z.of_nat (seq (List.length pre) (List.length post))) w
  = (scan_texts content (texts rows post), w).
Proof.
  revert pre; induction post as [|sr post IH]; intros pre; simpl; [reflexivity|].
  unfold bind, ask; simpl.
  assert (Hin : in_rows (pre ++ sr :: post) (Z.of_nat (List.length pre)) = true).
  { apply in_rows_spec. rewrite length_app; simpl. lia. }
  rewrite Hin; simpl.
  rewrite Nat2Z.id, nth_error_app2, Nat.sub_diag by lia; simpl.
  destruct (row_text rows sr) as [u|e]; [|reflexivity].
  destruct (py_eq content u); [reflexivity|].
  specialize (IH (pre ++ [sr])).
  rewrite <- app_assoc in IH; simpl in IH.
  rewrite length_app in IH; simpl in IH.
  rewrite Nat.add_1_r in IH. exact IH.
Qed.

Lemma already_in_view_list (rows : Rows) (base : Z -> QModelIndex -> result bool)
    (content : PyVal) (visible : list Z) (w : World) :
  already_in_view (list_proxy rows visible base) content
    (py_range (Z.of_nat (List.length visible))) w
  = (scan_texts content (texts rows visible), w).
Proof.
  unfold py_range. rewrite Nat2Z.id.
  exact (already_in_view_list_from rows base content w visible []).
Qed.

(** The candidate's content is the display value of its source row. *)
Lemma candidate_content (rows : Rows) (r : Z) :
  match sm_index (list_source rows) r 0 InvalidIndex with
  | Ok cix => sm_data (list_source rows) cix DisplayRole
  | Raise e => Raise e
  end = row_text rows r.
Proof.
  simpl. unfold row_text.
  destruct (in_rows rows r) eqn:E; simpl; [rewrite E|]; reflexivity.
Qed.

(** [filterAcceptsRow] on a list-backed proxy, case by case. *)
Lemma filterAcceptsRow_list (rows : Rows) (base : Z -> QModelIndex -> result bool)
    (visible : list Z) (r : Z) (w : World) :
  filterAcceptsRow (list_proxy rows visible base) r InvalidIndex w
  = match row_text rows r with
    | Raise e => (Ok false, logged (filter_error e) w)
    | Ok v =>
        match scan_texts v (texts rows visible) with
        | Raise e => (Ok false, logged (filter_error e) w)
        | Ok true => (Ok false, w)
        | Ok false =>
            match base r InvalidIndex with
            | Ok b => (Ok b, w)
            | Raise e => (Ok false, logged (filter_error e) w)
            end
        end
    end.
Proof.
  unfold filterAcceptsRow, try_except, filterAcceptsRow_try, bind, ask, the_source.
  pose proof (candidate_content rows r) as Hc.
  cbn [sourceModel list_proxy rowCount super_filterAcceptsRow] in *.
  cbn [sm_index list_source] in *. rewrite Hc.
  destruct (row_text rows r) as [v|e]; [|reflexivity].
  rewrite (already_in_view_list rows base v visible w).
  destruct (scan_texts v (texts rows visible)) as [[|]|e]; reflexivity.
Qed.

(** ** Rows fed through the filter *)

Section Feed.

Variable rows : Rows.
Variable base : Z -> QModelIndex -> result bool.
Variable place : Z -> list Z -> list Z.
Hypothesis place_perm : forall r l, Permutation (place r l) (r :: l).

(** One candidate: it joins the view exactly when it is eligible and no
    shown row displays its value. *)
Lemma feed_step (r : Z) (rest visible : list Z) (w : World) :
  (exists v w',
      eligible rows base v r /\
      scan_texts v (texts rows visible) = Ok false /\
      feed rows base place (r :: rest) visible w
      = feed rows base place rest (place r visible) w')
  \/
  ((forall v, eligible rows base v r ->
              scan_texts v (texts rows visible) <> Ok false) /\
   exists w',
     feed rows base place (r :: rest) visible w
     = feed rows base place rest visible w').
Proof.
  simpl. rewrite filterAcceptsRow_list. unfold eligible.
  destruct (row_text rows r) as [v|e] eqn:Ht.
  2:{ right; split; [intros v [Hv _]; discriminate | eauto]. }
  destruct (scan_texts v (texts rows visible)) as [[|]|e] eqn:Hs.
  - right; split; [intros u [Hu _]; inversion Hu; subst; congruence | eauto].
  - destruct (base r InvalidIndex) as [[|]|e] eqn:Hb.
    + left; exists v, w; auto.
    + right; split; [intros u [_ Hu]; discriminate | eauto].
    + right; split; [intros u [_ Hu]; discriminate | eauto].
  - right; split; [intros u [Hu _]; inversion Hu; subst; congruence | eauto].
Qed.

Lemma texts_place (r : Z) (visible : list Z) :
  Permutation (texts rows (place r visible)) (row_text rows r :: texts rows visible).
Proof. exact (Permutation_map (row_text rows) (place_perm r visible)). Qed.

Lemma unique_view_place (v : PyVal) (r : Z) (visible : list Z) :
  unique_view rows visible ->
  row_text rows r = Ok v ->
  scan_texts v (texts rows visible) = Ok false ->
  unique_view rows (place r visible).
Proof.
  intros [Hread Hnd] Ht Hs; split.
  - apply (Permutation_Forall (Permutation_sym (place_perm r visible))).
    constructor; [exists v; exact Ht | exact Hread].
  - apply (Permutation_NoDup (Permutation_sym (texts_place r visible))).
    constructor; [rewrite Ht; apply scan_texts_false, Hs | exact Hnd].
Qed.

(** The view stays readable and free of duplicates. *)
Lemma feed_unique_view (candidates visible : list Z) (w : World) :
  unique_view rows visible ->
  unique_view rows (fst (feed rows base place candidates visible w)).
Proof.
  revert visible w; induction candidates as [|r rest IH]; intros visible w Hinv;
    [exact Hinv|].
  destruct (feed_step r rest visible w)
    as [(v & w' & [Ht _] & Hs & ->) | (_ & w' & ->)].
  - apply IH. eapply unique_view_place; eassumption.
  - apply IH, Hinv.
Qed.

(** A shown row stays shown. *)
Lemma feed_keeps (candidates visible : list Z) (w : World) (x : Z) :
  In x visible -> In x (fst (feed rows base place candidates visible w)).
Proof.
  revert visible w; induction candidates as [|r rest IH]; intros visible w Hin;
    [exact Hin|].
  destruct (feed_step r rest visible w)
    as [(v & w' & _ & _ & ->) | (_ & w' & ->)].
  - apply IH. apply (Permutation_in x (Permutation_sym (place_perm r visible))).
    right; exact Hin.
  - apply IH, Hin.
Qed.

(** A shown row was shown before or is one of the candidates. *)
Lemma feed_from (candidates visible : list Z) (w : World) (x : Z) :
  In x (fst (feed rows base place candidates visible w)) ->
  In x visible \/ In x candidates.
Proof.
  revert visible w; induction candidates as [|r rest IH]; intros visible w Hin;
    [left; exact Hin|].
  destruct (feed_step r rest visible w)
    as [(v & w' & _ & _ & E) | (_ & w' & E)]; rewrite E in Hin;
    destruct (IH _ _ Hin) as [H | H].
  - apply (Permutation_in x (place_perm r visible)) in H.
    destruct H as [-> | H]; [right; left; reflexivity | left; exact H].
  - right; right; exact H.
  - left; exact H.
  - right; right; exact H.
Qed.

Lemma NoDup_map_eq {A B} (f : A -> B) (l : list A) (a b : A) :
  NoDup (map f l) -> In a l -> In b l -> f a = f b -> a = b.
Proof.
  induction l as [|x l IH]; simpl; [tauto|].
  intros Hnd Ha Hb E. inversion Hnd as [|? ? Hx Hl]; subst.
  destruct Ha as [-> | Ha], Hb as [-> | Hb]; auto.
  - exfalso; apply Hx. rewrite E. apply in_map, Hb.
  - exfalso; apply Hx. rewrite <- E. apply in_map, Ha.
Qed.

(** First seen wins: the first eligible candidate displaying [v] is shown,
    and it is the only shown row displaying [v]. *)
Lemma feed_first_eligible (before : list Z) (r : Z) (after visible : list Z)
    (v : PyVal) (w : World) :
  unique_view rows visible ->
  ~ In (Ok v) (texts rows visible) ->
  eligible rows base v r ->
  (forall r', In r' before -> ~ eligible rows base v r') ->
  let shown := fst (feed rows base place (before ++ r :: after) visible w) in
  In r shown /\ forall r', In r' shown -> row_text rows r' = Ok v -> r' = r.
Proof.
  intros Hinv Hnin Hel Hbefore shown.
  assert (Hr : In r shown).
  { subst shown. revert visible w Hinv Hnin.
    induction before as [|b before IH]; intros visible w Hinv Hnin; simpl app.
    - destruct (feed_step r after visible w)
        as [(u & w' & _ & _ & ->) | (Hrej & _)].
      + apply feed_keeps.
        apply (Permutation_in r (Permutation_sym (place_perm r visible))).
        left; reflexivity.
      + exfalso. apply (Hrej v Hel).
        apply scan_texts_readable; [|exact Hnin].
        destruct Hinv as [Hread _]. unfold texts.
        apply Forall_map. exact Hread.
    - destruct (feed_step b (before ++ r :: after) visible w)
        as [(u & w' & [Hu Hbu] & Hs & ->) | (_ & w' & ->)].
      + apply IH.
        * intros r' Hr'; apply Hbefore; right; exact Hr'.
        * eapply unique_view_place; eassumption.
        * intros Hin.
          apply (Permutation_in _ (texts_place b visible)) in Hin.
          destruct Hin as [E | Hin]; [|exact (Hnin Hin)].
          rewrite Hu in E; inversion E; subst.
          apply (Hbefore b (or_introl eq_refl)). split; assumption.
      + apply IH; [|exact Hinv|exact Hnin].
        intros r' Hr'; apply Hbefore; right; exact Hr'. }
  split; [exact Hr|].
  intros r' Hr' Ht.
  destruct (feed_unique_view (before ++ r :: after) w Hinv) as [_ Hnd].
  apply (NoDup_map_eq (row_text rows) _ r' r Hnd Hr' Hr).
  destruct Hel as [Hv _]. congruence.
Qed.

End Feed.

Lemma place_last_perm (r : Z) (l : list Z) : Permutation (place_last r l) (r :: l).
Proof. unfold place_last. apply Permutation_sym, Permutation_cons_append. Qed.

(** C1.  Rows are fed through the filter of a proxy that starts empty and
    whose base filter is the stock one; an accepted row is shown at any
    position ([place]).  Then (1) after every prefix of the candidates no
    two shown rows display the same value, (2) every shown row is one of the
    candidates, and (3) the first candidate that displays a value [v] is
    shown and is the only shown row displaying [v]. *)
Theorem feed_unique_first_seen_wins
    (rows : Rows) (place : Z -> list Z -> list Z) (candidates : list Z) (w : World) :
  (forall r l, Permutation (place r l) (r :: l)) ->
  (forall n,
      NoDup (texts rows
               (fst (feed rows stock_filterAcceptsRow place
                       (firstn n candidates) [] w))))
  /\ incl (fst (feed rows stock_filterAcceptsRow place candidates [] w)) candidates
  /\ (forall before r after v,
         candidates = before ++ r :: after ->
         row_text rows r = Ok v ->
         (forall r', In r' before -> row_text rows r' <> Ok v) ->
         In r (fst (feed rows stock_filterAcceptsRow place candidates [] w))
         /\ forall r',
             In r' (fst (feed rows stock_filterAcceptsRow place candidates [] w)) ->
             row_text rows r' = Ok v -> r' = r).
Proof.
  intros Hplace.
  assert (Hempty : unique_view rows []).
  { split; constructor. }
  split; [|split].
  - intros n. eapply feed_unique_view; [exact Hplace | exact Hempty].
  - intros x Hx.
    eapply feed_from in Hx; [|exact Hplace]. destruct Hx as [[] | H]; exact H.
  - intros before r after v -> Hv Hfirst.
    eapply feed_first_eligible.
    + exact Hplace.
    + exact Hempty.
    + intros [].
    + split; [exact Hv | reflexivity].
    + intros r' Hr' [Hv' _]; exact (Hfirst r' Hr' Hv').
Qed.

Lemma feed_unique_first_seen_wins_witness :
  (forall n,
      NoDup (texts repeated_rows
               (fst (feed repeated_rows stock_filterAcceptsRow place_last
                       (firstn n [0; 1; 2]) [] new_dialog))))
  /\ incl (fst (feed repeated_rows stock_filterAcceptsRow place_last
                  [0; 1; 2] [] new_dialog)) [0; 1; 2]
  /\ (forall before r after v,
         [0; 1; 2] = before ++ r :: after ->
         row_text repeated_rows r = Ok v ->
         (forall r', In r' before -> row_text repeated_rows r' <> Ok v) ->
         In r (fst (feed repeated_rows stock_filterAcceptsRow place_last
                      [0; 1; 2] [] new_dialog))
         /\ forall r',
             In r' (fst (feed repeated_rows stock_filterAcceptsRow place_last
                           [0; 1; 2] [] new_dialog)) ->
             row_text repeated_rows r' = Ok v -> r' = r).
Proof.
  apply (@feed_unique_first_seen_wins repeated_rows place_last [0; 1; 2] new_dialog).
  exact place_last_perm.
Defined.

(** The third row of [repeated_rows] repeats the first and is hidden. *)
Example feed_repeated_rows :
  fst (feed repeated_rows stock_filterAcceptsRow place_last [0; 1; 2] [] new_dialog)
  = [0; 1].
Proof. reflexivity. Qed.

(** ** The "paint", "Paint", "rig" scenario *)

(** C5 (amended).  Offered rows displaying "paint", "Paint" and "rig", the
    filter accepts all three: "paint" and "Paint" are different texts for
    [==].  Sorted ascending by [lessThan], which orders code points and so
    puts upper case first, the shown texts read "Paint", "paint", "rig". *)
Theorem paint_scenario :
  feed paint_rows stock_filterAcceptsRow place_last [0; 1; 2] [] new_dialog
  = ([0; 1; 2], new_dialog)
  /\ py_eq (PyStr (lit "paint")) (PyStr (lit "Paint")) = false
  /\ texts paint_rows
       (proxy_sort paint_rows AscendingOrder
          (fst (feed paint_rows stock_filterAcceptsRow place_last [0; 1; 2] []
                  new_dialog)))
     = [Ok (PyStr (lit "Paint")); Ok (PyStr (lit "paint")); Ok (PyStr (lit "rig"))].
Proof. repeat split. Qed.

(** The shown list is never "paint", "Paint", "rig" in ascending order:
    sorting gives another list, and [lessThan] puts "Paint" below "paint". *)
Lemma paint_scenario_order :
  texts paint_rows
    (proxy_sort paint_rows AscendingOrder
       (fst (feed paint_rows stock_filterAcceptsRow place_last [0; 1; 2] []
               new_dialog)))
  <> [Ok (PyStr (lit "paint")); Ok (PyStr (lit "Paint")); Ok (PyStr (lit "rig"))]
  /\ lessThan (list_proxy paint_rows [0; 1; 2] stock_filterAcceptsRow)
       (IndexAt 1 0) (IndexAt 0 0) new_dialog = (Ok true, new_dialog)
  /\ lessThan (list_proxy paint_rows [0; 1; 2] stock_filterAcceptsRow)
       (IndexAt 0 0) (IndexAt 1 0) new_dialog = (Ok false, new_dialog).
Proof. repeat split. discriminate. Qed.

(* ===================================================================== *)
(** * Sorting by [lessThan] *)
(* ===================================================================== *)

Lemma str_ltb_asym (a b : str) : str_ltb a b = true -> str_ltb b a = false.
Proof.
  revert b; induction a as [|x a IH]; intros [|y b]; simpl;
    try reflexivity; try discriminate.
  destruct (N.ltb_spec x y), (N.ltb_spec y x);
    destruct (N.eqb_spec x y), (N.eqb_spec y x);
    try discriminate; try lia; try reflexivity.
  apply IH.
Qed.

Lemma insert_row_perm (less : Z -> Z -> bool) (r : Z) (l : list Z) :
  Permutation (insert_row less r l) (r :: l).
Proof.
  induction l as [|x l IH]; simpl; [apply Permutation_refl|].
  destruct (less x r); [|apply Permutation_refl].
  apply perm_trans with (x :: r :: l); [apply perm_skip, IH | apply perm_swap].
Qed.

Lemma sort_rows_perm (less : Z -> Z -> bool) (l : list Z) :
  Permutation (sort_rows less l) l.
Proof.
  induction l as [|x l IH]; simpl; [constructor|].
  apply perm_trans with (x :: sort_rows less l);
    [apply insert_row_perm | apply perm_skip, IH].
Qed.

Lemma insert_row_ext (less less' : Z -> Z -> bool) (r : Z) (l : list Z) :
  (forall x, In x l -> less x r = less' x r) ->
  insert_row less r l = insert_row less' r l.
Proof.
  induction l as [|x l IH]; simpl; intros H; [reflexivity|].
  rewrite (H x (or_introl eq_refl)).
  destruct (less' x r); [|reflexivity].
  f_equal; apply IH; intros y Hy; apply H; right; exact Hy.
Qed.

(** The sort depends on the comparison of the sorted rows only. *)
Lemma sort_rows_ext (less less' : Z -> Z -> bool) (l : list Z) :
  (forall x y, In x l -> In y l -> less x y = less' x y) ->
  sort_rows less l = sort_rows less' l.
Proof.
  induction l as [|x l IH]; simpl; intros H; [reflexivity|].
  rewrite IH by (intros a b Ha Hb; apply H; right; assumption).
  apply insert_row_ext. intros y Hy. apply H; [right | left; reflexivity].
  exact (Permutation_in y (sort_rows_perm less' l) Hy).
Qed.

Section SortByKey.

Variable key : Z -> str.

Lemma insert_row_sorted (r : Z) (l : list Z) :
  StronglySorted (key_not_above key) l ->
  StronglySorted (key_not_above key) (insert_row (key_less key) r l).
Proof.
  induction 1 as [|x l Hl IH Hx]; simpl; [repeat constructor|].
  unfold key_less at 1. destruct (str_ltb (key x) (key r)) eqn:E.
  - constructor; [exact IH|].
    apply (Permutation_Forall (Permutation_sym (insert_row_perm (key_less key) r l))).
    constructor; [apply str_ltb_asym, E | exact Hx].
  - constructor; [constructor; assumption|].
    constructor; [exact E|].
    apply Forall_forall; intros y Hy.
    rewrite Forall_forall in Hx. specialize (Hx y Hy).
    unfold key_not_above in *. exact (str_ltb_false_trans _ _ _ E Hx).
Qed.

Lemma sort_rows_sorted (l : list Z) :
  StronglySorted (key_not_above key) (sort_rows (key_less key) l).
Proof.
  induction l as [|x l IH]; simpl; [constructor | apply insert_row_sorted, IH].
Qed.

(** Sorted rows with pairwise different keys ascend strictly. *)
Lemma sorted_strict (l : list Z) :
  StronglySorted (key_not_above key) l -> NoDup (map key l) ->
  StronglySorted (fun a b => lex_lt (key a) (key b)) l.
Proof.
  induction 1 as [|x l Hl IH Hx]; simpl; intros Hnd; [constructor|].
  inversion Hnd as [|? ? Hnin Hnd']; subst.
  constructor; [apply IH, Hnd'|].
  apply Forall_forall; intros y Hy.
  rewrite Forall_forall in Hx. specialize (Hx y Hy). unfold key_not_above in Hx.
  apply str_ltb_lex.
  destruct (str_ltb (key x) (key y)) eqn:E; [reflexivity|].
  exfalso; apply Hnin.
  rewrite (str_ltb_total _ _ E Hx). apply in_map, Hy.
Qed.

End SortByKey.

(** On rows that display texts, the sort's comparison is [<] on the texts. *)
Lemma row_less_key (rows : Rows) (visible : list Z) (a b : Z) :
  shows_text rows a -> shows_text rows b ->
  row_less rows visible a b = str_ltb (row_key rows a) (row_key rows b).
Proof.
  intros [Ha [sa Hta]] [Hb [sb Htb]].
  unfold row_less, lessThan, bind, ask, the_source, item_value, row_key.
  cbn [sourceModel list_proxy sm_itemFromIndex list_source].
  rewrite Ha, Hb. cbn [item_data role_value fst].
  rewrite Hta, Htb. reflexivity.
Qed.

(** [proxy.sort(0, AscendingOrder)] over rows that display pairwise
    different texts: the same rows, strictly ascending. *)
Lemma proxy_sort_ascending (rows : Rows) (visible : list Z) :
  Forall (shows_text rows) visible ->
  NoDup (texts rows visible) ->
  Permutation (proxy_sort rows AscendingOrder visible) visible
  /\ StronglySorted (fun a b => lex_lt (row_key rows a) (row_key rows b))
       (proxy_sort rows AscendingOrder visible).
Proof.
  intros Hshow Hnd. split; [apply sort_rows_perm|].
  unfold proxy_sort.
  rewrite (sort_rows_ext (row_less rows visible)
             (fun a b => str_ltb (row_key rows a) (row_key rows b))).
  2:{ rewrite Forall_forall in Hshow.
      intros x y Hx Hy. apply row_less_key; auto. }
  apply sorted_strict; [apply sort_rows_sorted|].
  apply (Permutation_NoDup
           (Permutation_sym (Permutation_map (row_key rows) (sort_rows_perm _ visible)))).
  clear - Hshow Hnd. induction Hshow as [|x l [_ [s Hs]] Hl IH]; [constructor|].
  simpl in *. inversion Hnd as [|? ? Hnin Hnd']; subst.
  constructor; [|apply IH, Hnd'].
  intros Hin. apply Hnin. apply in_map_iff in Hin.
  destruct Hin as (y & Hy & Hyl). apply in_map_iff. exists y; split; [|exact Hyl].
  rewrite Forall_forall in Hl. destruct (Hl y Hyl) as [_ [t Ht]].
  unfold row_key in Hy. rewrite Hs, Ht in Hy. rewrite Hs, Ht. congruence.
Qed.

(* ===================================================================== *)
(** * The dialog controller *)
(* ===================================================================== *)

(** ** Frame rules of the monad *)

Section Preserves.

Variable R : World -> World -> Prop.
Hypothesis R_refl : forall w, R w w.
Hypothesis R_trans : forall w1 w2 w3, R w1 w2 -> R w2 w3 -> R w1 w3.

Lemma preserves_ret {A} (a : A) : preserves R (ret a).
Proof. intros w; apply R_refl. Qed.

Lemma preserves_raise {A} (e : exn) : preserves R (@raise A e).
Proof. intros w; apply R_refl. Qed.

Lemma preserves_ask {A} (r : result A) : preserves R (ask r).
Proof. intros w; apply R_refl. Qed.

Lemma preserves_read {A} (f : World -> result A) :
  preserves R (fun w => (f w, w)).
Proof. intros w; apply R_refl. Qed.

Lemma preserves_bind {A B} (m : M A) (k : A -> M B) :
  preserves R m -> (forall a, preserves R (k a)) -> preserves R (bind m k).
Proof.
  intros Hm Hk w. unfold bind. specialize (Hm w).
  destruct (m w) as [[a|e] w1]; simpl in *; [|exact Hm].
  exact (R_trans Hm (Hk a w1)).
Qed.

Lemma preserves_try_except {A} (body : M A) (handler : exn -> M A) :
  preserves R body -> (forall e, preserves R (handler e)) ->
  preserves R (try_except body handler).
Proof.
  intros Hm Hk w. unfold try_except. specialize (Hm w).
  destruct (body w) as [[a|e] w1]; simpl in *; [exact Hm|].
  exact (R_trans Hm (Hk e w1)).
Qed.

End Preserves.

Lemma same_entity_refl (w : World) : same_entity w w.
Proof. reflexivity. Qed.

Lemma same_entity_trans (w1 w2 w3 : World) :
  same_entity w1 w2 -> same_entity w2 w3 -> same_entity w1 w3.
Proof. unfold same_entity; congruence. Qed.

Lemma same_wiring_refl (w : World) : same_wiring w w.
Proof. intros sig; reflexivity. Qed.

Lemma same_wiring_trans (w1 w2 w3 : World) :
  same_wiring w1 w2 -> same_wiring w2 w3 -> same_wiring w1 w3.
Proof. unfold same_wiring; intros H1 H2 sig; rewrite H2; apply H1. Qed.

Lemma call_same_entity (host : Host) (c : Call) : preserves same_entity (call host c).
Proof. intros w; unfold call; destruct (raises host c w); reflexivity. Qed.

Lemma emit_same_entity (lvl : Level) (msg : string) (exc : bool) :
  preserves same_entity (emit lvl msg exc).
Proof. intros w; reflexivity. Qed.

Lemma emit_same_wiring (lvl : Level) (msg : string) (exc : bool) :
  preserves same_wiring (emit lvl msg exc).
Proof. intros w sig; reflexivity. Qed.

Lemma set_active_entity_same_wiring (v : PyVal) :
  preserves same_wiring (set_active_entity v).
Proof. intros w sig; reflexivity. Qed.

Lemma get_active_entity_reads (R : World -> World -> Prop) :
  (forall w, R w w) -> preserves R get_active_entity.
Proof.
  intros Hrefl w; unfold get_active_entity.
  destruct (active_entity w); apply Hrefl.
Qed.

(** A call that is not a [connect] leaves the wiring alone. *)
Lemma call_same_wiring (host : Host) (c : Call) :
  is_connect c = false -> preserves same_wiring (call host c).
Proof.
  intros Hc w sig. unfold call.
  assert (E : slots_of sig (recorded c (raises host c w) w) = slots_of sig w).
  { unfold slots_of, recorded; simpl. rewrite flat_map_app; simpl.
    destruct c; try discriminate Hc; simpl; rewrite app_nil_r; reflexivity. }
  destruct (raises host c w); exact E.
Qed.

(** Decompose a method into its calls. *)
Ltac frame_rel :=
  first [ exact same_entity_refl | exact same_entity_trans
        | exact same_wiring_refl | exact same_wiring_trans ].

Ltac frame :=
  repeat first
    [ apply preserves_bind; [frame_rel | | intros ]
    | apply preserves_try_except; [frame_rel | | intros ]
    | apply preserves_ret; frame_rel
    | apply preserves_raise; frame_rel
    | apply preserves_ask; frame_rel
    | apply preserves_read; frame_rel
    | apply get_active_entity_reads; frame_rel
    | apply call_same_entity
    | apply emit_same_entity
    | apply emit_same_wiring
    | apply set_active_entity_same_wiring
    | apply call_same_wiring; reflexivity ].

Lemma init_same_entity (host : Host) : preserves same_entity (init host).
Proof. unfold init, logger_info. frame. Qed.

Lemma load_task_data_same_entity (host : Host) :
  preserves same_entity (load_task_data host).
Proof. unfold load_task_data. frame. Qed.

Lemma load_task_data_same_wiring (host : Host) :
  preserves same_wiring (load_task_data host).
Proof. unfold load_task_data. frame. Qed.

Lemma destroy_same_entity (host : Host) : preserves same_entity (destroy host).
Proof. unfold destroy. frame. Qed.

Lemma clear_cache_same_entity (host : Host) :
  preserves same_entity (clear_cache host).
Proof. unfold clear_cache. frame. Qed.

Lemma on_task_data_refreshed_same_entity (host : Host) :
  preserves same_entity (on_task_data_refreshed host).
Proof. unfold on_task_data_refreshed. frame. Qed.

Lemma on_dynamic_sort_changed_same_entity (host : Host) (state : Z) :
  preserves same_entity (on_dynamic_sort_changed host state).
Proof. unfold on_dynamic_sort_changed, logger_debug. frame. Qed.

Lemma handle_asset_selection_same_wiring (host : Host)
    (selected deselected : QItemSelection) :
  preserves same_wiring (handle_asset_selection host selected deselected).
Proof.
  unfold handle_asset_selection, logger_error.
  apply preserves_try_except; [frame_rel | | intros; apply emit_same_wiring].
  apply preserves_bind; [frame_rel | apply preserves_ask; frame_rel |].
  intros [|ix rest]; [apply preserves_ret; frame_rel|].
  apply preserves_bind; [frame_rel | apply preserves_read; frame_rel |].
  intros v. apply preserves_bind;
    [frame_rel | apply set_active_entity_same_wiring |].
  intros _. apply load_task_data_same_wiring.
Qed.

(** ** Deselection *)

Lemma issued_nothing (w : World) : issued w w = [].
Proof. unfold issued. apply skipn_all. Qed.

(** C9.  When the new selection is empty, [handle_asset_selection] returns
    with the state it found: [active_entity] is as it was, nothing is
    logged and no call is issued, so that the host's Task list is the one
    it was. *)
Theorem deselection_changes_nothing (host : Host)
    (selected deselected : QItemSelection) (w : World) (h : HostState) :
  indexes selected = Ok [] ->
  handle_asset_selection host selected deselected w = (Ok tt, w)
  /\ issued w (snd (handle_asset_selection host selected deselected w)) = []
  /\ host_replay (issued w (snd (handle_asset_selection host selected deselected w))) h
     = h.
Proof.
  intros H.
  assert (E : handle_asset_selection host selected deselected w = (Ok tt, w)).
  { unfold handle_asset_selection, try_except, bind, ask. rewrite H. reflexivity. }
  rewrite E. cbn [snd]. rewrite issued_nothing. repeat split.
Qed.

Lemma deselection_changes_nothing_witness :
  handle_asset_selection quiet_host select_none select_one after_asset_a
  = (Ok tt, after_asset_a)
  /\ issued after_asset_a
       (snd (handle_asset_selection quiet_host select_none select_one after_asset_a))
     = []
  /\ host_replay
       (issued after_asset_a
          (snd (handle_asset_selection quiet_host select_none select_one
                  after_asset_a)))
       no_host_state
     = no_host_state.
Proof.
  apply (@deselection_changes_nothing quiet_host select_none select_one
           after_asset_a no_host_state).
  reflexivity.
Defined.

(** ** The attribute [active_entity] *)

Lemma load_task_data_unset (host : Host) (w : World) :
  active_entity w = None ->
  load_task_data host w = (Raise (no_attribute "AppDialog" "active_entity"), w).
Proof.
  intros H. unfold load_task_data, bind, get_active_entity. rewrite H. reflexivity.
Qed.

(** A selection change that does not select leaves the attribute alone. *)
Lemma handle_asset_selection_same_entity (host : Host)
    (selected deselected : QItemSelection) (w : World) :
  ~ selects host (ev_selectionChanged selected deselected) w ->
  same_entity w (snd (handle_asset_selection host selected deselected w)).
Proof.
  intros H. unfold handle_asset_selection, try_except, bind, ask.
  destruct (indexes selected) as [[|ix rest]|e] eqn:E; simpl; try reflexivity.
  destruct (entity_proxy_data host ix SG_DATA_ROLE w) as [v|e] eqn:Ed;
    simpl; [|reflexivity].
  exfalso; apply H; simpl; eauto.
Qed.

Lemma run_slot_same_entity (host : Host) (slot : Slot) (ev : UiEvent) (w : World) :
  ~ selects host ev w -> same_entity w (snd (run_slot host slot ev w)).
Proof.
  intros H. destruct slot, ev; simpl; try reflexivity;
    try apply handle_asset_selection_same_entity;
    try apply on_task_data_refreshed_same_entity;
    try apply load_task_data_same_entity;
    try apply call_same_entity;
    try apply on_dynamic_sort_changed_same_entity; assumption.
Qed.

Lemma run_slot_same_wiring (host : Host) (slot : Slot) (ev : UiEvent) :
  preserves same_wiring (run_slot host slot ev).
Proof.
  destruct slot, ev; simpl;
    try (apply preserves_raise; frame_rel);
    try apply handle_asset_selection_same_wiring;
    try apply load_task_data_same_wiring;
    try (unfold on_task_data_refreshed; frame);
    try (unfold on_dynamic_sort_changed, logger_debug; frame);
    try (apply call_same_wiring; reflexivity).
Qed.

(** Once [__init__] has run through, every signal reaches its one slot. *)
Lemma init_wires (host : Host) (sig : Signal) :
  fst (init host new_dialog) = Ok tt ->
  slots_of sig (snd (init host new_dialog)) = [wired sig].
Proof.
  unfold init, bind, call, logger_info, emit.
  repeat match goal with
         | |- context [raises host ?c ?w] =>
             destruct (raises host c w); simpl; [discriminate|]
         | |- context [tasks_proxy_dynamicSortFilter host ?w] =>
             destruct (tasks_proxy_dynamicSortFilter host w); simpl; [|discriminate]
         end.
  intros _. destruct sig; reflexivity.
Qed.

(** On a dialog wired as [__init__] does, an event runs its one slot. *)
Lemma deliver_wired (host : Host) (ev : UiEvent) (w : World) :
  (forall sig, slots_of sig w = [wired sig]) ->
  deliver host ev w
  = ([fst (run_slot host (wired (signal_of ev)) ev w)],
     snd (run_slot host (wired (signal_of ev)) ev w)).
Proof.
  intros Hw. unfold deliver. rewrite Hw. simpl.
  destruct (run_slot host (wired (signal_of ev)) ev w); reflexivity.
Qed.

(** Events none of which selects leave the attribute and the wiring as
    they were. *)
Lemma run_events_none_selects (host : Host) (evs : list UiEvent) (w : World) :
  (forall sig, slots_of sig w = [wired sig]) ->
  none_selects host evs w ->
  same_entity w (run_events host evs w) /\ same_wiring w (run_events host evs w).
Proof.
  revert w; induction evs as [|ev evs IH]; intros w Hw Hnone; simpl.
  - split; [reflexivity | apply same_wiring_refl].
  - destruct Hnone as [Hev Hrest].
    rewrite (deliver_wired host ev w Hw) in *. cbn [snd] in *.
    pose proof (run_slot_same_wiring host (wired (signal_of ev)) ev w) as Hsw.
    pose proof (@run_slot_same_entity host (wired (signal_of ev)) ev w Hev) as Hse.
    destruct (IH _ (fun sig => eq_trans (Hsw sig) (Hw sig)) Hrest) as [IHe IHw].
    split; [exact (same_entity_trans Hse IHe) | exact (same_wiring_trans Hsw IHw)].
Qed.

(** C10.  No method but [handle_asset_selection] assigns [active_entity]:
    [__init__] and every other method leave the attribute as it was.  So on
    a dialog that was constructed and has since seen events none of which
    selected an entity, the attribute does not exist; [load_task_data]
    raises [AttributeError] before it issues any call, and a click on the
    refresh button, which reaches [load_task_data] alone, ends in that
    exception with nothing to catch it. *)
Theorem load_task_data_before_selection (host : Host) (evs : list UiEvent) :
  fst (init host new_dialog) = Ok tt ->
  none_selects host evs (snd (init host new_dialog)) ->
  (preserves same_entity (init host)
   /\ preserves same_entity (load_task_data host)
   /\ preserves same_entity (on_task_data_refreshed host)
   /\ preserves same_entity (clear_cache host)
   /\ preserves same_entity (destroy host)
   /\ forall state, preserves same_entity (on_dynamic_sort_changed host state))
  /\ active_entity (run_events host evs (snd (init host new_dialog))) = None
  /\ load_task_data host (run_events host evs (snd (init host new_dialog)))
     = (Raise (no_attribute "AppDialog" "active_entity"),
        run_events host evs (snd (init host new_dialog)))
  /\ deliver host ev_refresh_clicked (run_events host evs (snd (init host new_dialog)))
     = ([Raise (no_attribute "AppDialog" "active_entity")],
        run_events host evs (snd (init host new_dialog))).
Proof.
  intros Hinit Hevs.
  destruct (@run_events_none_selects host evs (snd (init host new_dialog))
              (fun sig => @init_wires host sig Hinit) Hevs)
    as [He Hw].
  assert (Hnone : active_entity (run_events host evs (snd (init host new_dialog)))
                  = None).
  { rewrite He. exact (init_same_entity host new_dialog). }
  split; [|split; [exact Hnone | split]].
  - repeat split.
    + apply init_same_entity.
    + apply load_task_data_same_entity.
    + apply on_task_data_refreshed_same_entity.
    + apply clear_cache_same_entity.
    + apply destroy_same_entity.
    + intros state; apply on_dynamic_sort_changed_same_entity.
  - apply load_task_data_unset, Hnone.
  - rewrite deliver_wired
      by (intros sig; rewrite (Hw sig); apply init_wires, Hinit).
    cbn [signal_of wired run_slot].
    rewrite (load_task_data_unset host _ Hnone). reflexivity.
Qed.

Lemma load_task_data_before_selection_witness :
  active_entity
    (run_events data_fails_host
       [ev_stateChanged 0; ev_selectionChanged select_none select_none;
        ev_selectionChanged select_one select_none; ev_data_refreshed]
       (snd (init data_fails_host new_dialog))) = None
  /\ deliver data_fails_host ev_refresh_clicked
       (run_events data_fails_host
          [ev_stateChanged 0; ev_selectionChanged select_none select_none;
           ev_selectionChanged select_one select_none; ev_data_refreshed]
          (snd (init data_fails_host new_dialog)))
     = ([Raise (no_attribute "AppDialog" "active_entity")],
        run_events data_fails_host
          [ev_stateChanged 0; ev_selectionChanged select_none select_none;
           ev_selectionChanged select_one select_none; ev_data_refreshed]
          (snd (init data_fails_host new_dialog))).
Proof.
  assert (Hevs : none_selects data_fails_host
                   [ev_stateChanged 0; ev_selectionChanged select_none select_none;
                    ev_selectionChanged select_one select_none; ev_data_refreshed]
                   (snd (init data_fails_host new_dialog))).
  { simpl. repeat split; try solve [intros []];
      intros (ix & rest & v & H1 & H2); discriminate. }
  destruct (@load_task_data_before_selection data_fails_host _ eq_refl Hevs)
    as (_ & Hnone & _ & Hclick).
  split; [exact Hnone | exact Hclick].
Defined.

(** ** Errors while handling a selection *)

(** C6 (amended).  On a selection that is not empty nothing propagates out
    of [handle_asset_selection].  When reading the selected entity raises,
    the exception is logged and nothing else changes: no call is issued and
    [active_entity] keeps its value.  When [load_task_data] raises, after
    the assignment, the exception is logged as well and [active_entity] is
    the newly selected entity. *)
Theorem handle_asset_selection_errors (host : Host)
    (selected deselected : QItemSelection) (index : QModelIndex)
    (rest : list QModelIndex) (w : World) :
  indexes selected = Ok (index :: rest) ->
  (exists w', handle_asset_selection host selected deselected w = (Ok tt, w'))
  /\ (forall e,
         entity_proxy_data host index SG_DATA_ROLE w = Raise e ->
         handle_asset_selection host selected deselected w
         = (Ok tt, logged (selection_error e) w))
  /\ (forall v e w1,
         entity_proxy_data host index SG_DATA_ROLE w = Ok v ->
         load_task_data host (with_entity v w) = (Raise e, w1) ->
         handle_asset_selection host selected deselected w
         = (Ok tt, logged (selection_error e) w1)
         /\ active_entity (logged (selection_error e) w1) = Some v).
Proof.
  intros Hix. unfold handle_asset_selection, try_except, bind, ask.
  rewrite Hix. cbn [set_active_entity].
  split; [|split].
  - destruct (entity_proxy_data host index SG_DATA_ROLE w) as [v|e];
      [|eexists; reflexivity].
    destruct (load_task_data host (with_entity v w)) as [[[]|e] w1];
      eexists; reflexivity.
  - intros e He. rewrite He. reflexivity.
  - intros v e w1 Hv Hload. rewrite Hv, Hload. split; [reflexivity|].
    pose proof (load_task_data_same_entity host (with_entity v w)) as H.
    rewrite Hload in H. exact H.
Qed.

Lemma handle_asset_selection_errors_witness :
  handle_asset_selection data_fails_host select_one select_none after_asset_a
  = (Ok tt, logged (selection_error (RuntimeError "index out of date")) after_asset_a).
Proof.
  destruct (@handle_asset_selection_errors data_fails_host select_one select_none
              (IndexAt 0 0) [] after_asset_a eq_refl) as (_ & Hdata & _).
  apply Hdata. reflexivity.
Defined.

(** The transition is not atomic when [load_task_data] raises: [asset_a]
    was active, the query for [asset_b] is refused, and [asset_b] is the
    active entity all the same. *)
Lemma handle_asset_selection_not_atomic :
  load_task_data load_fails_host (with_entity (PyEntity asset_b) after_asset_a)
  = (Raise (RuntimeError "query refused"),
     recorded
       (tasks_model_load_data "Task"
          ["content"; "sg_task_token"; "step.Step.short_name"]
          [{| f_field := "entity"; f_op := "is"; f_value := PyEntity asset_b |}]
          ["content"])
       (Some (RuntimeError "query refused"))
       (with_entity (PyEntity asset_b) after_asset_a))
  /\ active_entity after_asset_a = Some (PyEntity asset_a)
  /\ active_entity
       (snd (handle_asset_selection load_fails_host select_one select_none
               after_asset_a))
     = Some (PyEntity asset_b)
  /\ active_entity
       (snd (handle_asset_selection load_fails_host select_one select_none
               after_asset_a))
     <> active_entity after_asset_a.
Proof. repeat split. discriminate. Qed.

(** ** Teardown *)

(** C8 (amended).  [destroy] never propagates an exception and logs
    nothing.  It releases the entity model first; the tasks model is
    released only when that first release did not raise.  What a release
    raises is dropped. *)
Theorem destroy_best_effort (host : Host) (w : World) :
  destroy host w
  = (Ok tt,
     match raises host entity_model_destroy w with
     | Some e => recorded entity_model_destroy (Some e) w
     | None =>
         recorded tasks_model_destroy
           (raises host tasks_model_destroy (recorded entity_model_destroy None w))
           (recorded entity_model_destroy None w)
     end)
  /\ log (snd (destroy host w)) = log w
  /\ active_entity (snd (destroy host w)) = active_entity w.
Proof.
  unfold destroy, try_except, bind, call.
  destruct (raises host entity_model_destroy w) as [e|]; simpl.
  - repeat split.
  - destruct (raises host tasks_model_destroy (recorded entity_model_destroy None w));
      repeat split.
Qed.

(** When releasing the entity model raises, the tasks model is never asked
    to release. *)
Lemma destroy_skips_tasks_model :
  destroy destroy_fails_host new_dialog
  = (Ok tt,
     recorded entity_model_destroy (Some (RuntimeError "worker still running"))
       new_dialog)
  /\ ~ In tasks_model_destroy
       (map fst (trace (snd (destroy destroy_fails_host new_dialog)))).
Proof.
  split; [reflexivity|]. simpl. intros [H|[]]; discriminate H.
Qed.

(* ===================================================================== *)
(** * The Task list after a refresh *)
(* ===================================================================== *)

Lemma py_range_in (n r : Z) : In r (py_range n) <-> 0 <= r < n.
Proof.
  unfold py_range. rewrite in_map_iff. split.
  - intros (k & <- & Hk). apply in_seq in Hk. lia.
  - intros H. exists (Z.to_nat r). rewrite in_seq. split; lia.
Qed.

Lemma in_rows_display (l : list Task) (r : Z) :
  in_rows (display_rows l) r = in_rows l r.
Proof. unfold in_rows, display_rows. rewrite length_map. reflexivity. Qed.

Lemma row_text_display (l : list Task) (r : Z) :
  in_rows l r = true ->
  row_text (display_rows l) r = Ok (PyStr (task_content (task_at l r))).
Proof.
  intros H. unfold row_text. rewrite in_rows_display, H.
  apply in_rows_spec in H. unfold display_rows, task_at.
  rewrite (nth_indep _ (Ok PyNone) (Ok (PyStr (task_content no_task))))
    by (rewrite length_map; lia).
  exact (map_nth (fun t => Ok (PyStr (task_content t))) l no_task (Z.to_nat r)).
Qed.

Lemma shows_text_display (l : list Task) (r : Z) :
  in_rows l r = true -> shows_text (display_rows l) r.
Proof.
  intros H; split; [rewrite in_rows_display; exact H|].
  eexists; apply row_text_display, H.
Qed.

Lemma row_key_display (l : list Task) (r : Z) :
  in_rows l r = true -> row_key (display_rows l) r = task_content (task_at l r).
Proof. intros H. unfold row_key. rewrite (row_text_display l r H). reflexivity. Qed.

Lemma scan_texts_decides (v : PyVal) (shown : list (result PyVal)) :
  Forall (fun t => exists u, t = Ok u) shown ->
  scan_texts v shown = Ok false \/ In (Ok v) shown.
Proof.
  induction 1 as [|t shown [u ->] _ IH]; simpl; [left; reflexivity|].
  destruct (py_eq v u) eqn:E.
  - apply py_eq_eq in E; subst. right; left; reflexivity.
  - destruct IH as [IH | IH]; [left; exact IH | right; right; exact IH].
Qed.

(** Every value an eligible candidate displays is displayed by a shown row. *)
Lemma feed_covers (rows : Rows) (base : Z -> QModelIndex -> result bool)
    (place : Z -> list Z -> list Z) (candidates visible : list Z) (w : World)
    (v : PyVal) (r : Z) :
  (forall x l, Permutation (place x l) (x :: l)) ->
  Forall (readable rows) visible ->
  In r candidates ->
  eligible rows base v r ->
  exists r', In r' (fst (feed rows base place candidates visible w))
             /\ row_text rows r' = Ok v.
Proof.
  intros Hplace Hread Hin Hel. revert visible w Hread.
  induction candidates as [|c rest IH]; intros visible w Hread; [destruct Hin|].
  destruct (feed_step rows base place c rest visible w)
    as [(u & w' & [Hu _] & _ & ->) | (Hrej & w' & ->)].
  - assert (Hread' : Forall (readable rows) (place c visible)).
    { apply (Permutation_Forall (Permutation_sym (Hplace c visible))).
      constructor; [exists u; exact Hu | exact Hread]. }
    destruct Hin as [-> | Hin]; [|exact (IH Hin _ _ Hread')].
    exists r; split; [|exact (proj1 Hel)].
    apply feed_keeps; [exact Hplace|].
    apply (Permutation_in r (Permutation_sym (Hplace r visible))).
    left; reflexivity.
  - destruct Hin as [-> | Hin]; [|exact (IH Hin _ _ Hread)].
    assert (Hok : Forall (fun t => exists u, t = Ok u) (texts rows visible)).
    { unfold texts. apply Forall_map. exact Hread. }
    destruct (scan_texts_decides v Hok) as [Hs | Hv];
      [exfalso; exact (Hrej v Hel Hs)|].
    apply in_map_iff in Hv. destruct Hv as (r' & Hr' & Hin').
    exists r'; split; [|exact Hr'].
    apply feed_keeps; [exact Hplace | exact Hin'].
Qed.

Lemma view_tasks_map (h : HostState) :
  Forall (fun r => in_rows (tasks_rows h) r = true) (task_view h) ->
  view_tasks h = map (task_at (tasks_rows h)) (task_view h).
Proof.
  unfold view_tasks. induction 1 as [|r l Hr _ IH]; simpl; [reflexivity|].
  rewrite Hr, IH. apply in_rows_spec in Hr.
  destruct (nth_error (tasks_rows h) (Z.to_nat r)) as [t|] eqn:E.
  - unfold task_at. rewrite (nth_error_nth _ _ no_task E). reflexivity.
  - apply nth_error_None in E. lia.
Qed.

Lemma StronglySorted_map_rows (rel : Task -> Task -> Prop) (f : Z -> Task)
    (keyrel : Z -> Z -> Prop) (P : Z -> Prop) (l : list Z) :
  (forall a b, P a -> P b -> keyrel a b -> rel (f a) (f b)) ->
  Forall P l ->
  StronglySorted keyrel l ->
  StronglySorted rel (map f l).
Proof.
  intros Hrel HP Hs. induction Hs as [|x l Hl IH Hx]; simpl; [constructor|].
  inversion HP as [|? ? Px Pl]; subst.
  constructor; [apply IH, Pl|].
  apply Forall_map. rewrite Forall_forall in *.
  intros y Hy. apply Hrel; auto.
Qed.

(** After a refresh has completed and the view was sorted on column 0,
    ascending: the Tasks shown are Tasks the query returns, in strictly
    ascending order of content (so no content twice), and every content the
    query returns is shown. *)
Lemma refreshed_sorted_view (db : list Task) (h : HostState) :
  let h2 := host_step (tasks_proxy_sort 0 AscendingOrder) (refresh_completes db h) in
  tasks_query h2 = tasks_query h
  /\ StronglySorted content_below (view_tasks h2)
  /\ (forall t, In t (view_tasks h2) -> In t (fetch db (tasks_query h)))
  /\ (forall t, In t (fetch db (tasks_query h)) ->
                exists t', In t' (view_tasks h2) /\ task_content t' = task_content t).
Proof.
  cbv zeta. unfold refresh_completes. cbn [host_step Z.eqb tasks_rows task_view tasks_query].
  set (fetched := fetch db (tasks_query h)).
  set (rows := display_rows fetched).
  set (shown := fst (feed rows stock_filterAcceptsRow place_last
                       (py_range (Z.of_nat (List.length fetched))) [] new_dialog)).
  assert (Hrange : Forall (fun r => in_rows fetched r = true) shown).
  { apply Forall_forall; intros r Hr.
    apply (@feed_from rows stock_filterAcceptsRow place_last place_last_perm) in Hr.
    destruct Hr as [[] | Hr]. apply py_range_in in Hr. apply in_rows_spec, Hr. }
  assert (Hshow : Forall (shows_text rows) shown).
  { apply Forall_forall; intros r Hr. rewrite Forall_forall in Hrange.
    apply shows_text_display, Hrange, Hr. }
  assert (Hnd : NoDup (texts rows shown)).
  { apply (@feed_unique_view rows stock_filterAcceptsRow place_last place_last_perm).
    split; constructor. }
  destruct (proxy_sort_ascending Hshow Hnd) as [Hperm Hsorted].
  set (sorted := proxy_sort rows AscendingOrder shown) in *.
  assert (Hrange' : Forall (fun r => in_rows fetched r = true) sorted).
  { exact (Permutation_Forall (Permutation_sym Hperm) Hrange). }
  rewrite view_tasks_map by exact Hrange'. cbn [tasks_rows task_view].
  split; [reflexivity|]. split; [|split].
  - apply (@StronglySorted_map_rows content_below (task_at fetched)
             (fun a b => lex_lt (row_key rows a) (row_key rows b))
             (fun r => in_rows fetched r = true)); [|exact Hrange'|exact Hsorted].
    intros a b Ha Hb Hab. unfold content_below.
    subst rows. rewrite !row_key_display in Hab by assumption. exact Hab.
  - intros t Ht. apply in_map_iff in Ht. destruct Ht as (r & <- & Hr).
    rewrite Forall_forall in Hrange'. specialize (Hrange' r Hr).
    apply in_rows_spec in Hrange'. apply nth_In. lia.
  - intros t Ht. apply In_nth_error in Ht. destruct Ht as [k Hk].
    assert (Hlt : (k < List.length fetched)%nat).
    { apply nth_error_Some. rewrite Hk. discriminate. }
    assert (Hin : in_rows fetched (Z.of_nat k) = true) by (apply in_rows_spec; lia).
    assert (Htext : row_text rows (Z.of_nat k) = Ok (PyStr (task_content t))).
    { subst rows. rewrite (row_text_display fetched _ Hin). unfold task_at.
      rewrite Nat2Z.id, (nth_error_nth _ _ no_task Hk). reflexivity. }
    destruct (@feed_covers rows stock_filterAcceptsRow place_last
                (py_range (Z.of_nat (List.length fetched))) [] new_dialog
                (PyStr (task_content t)) (Z.of_nat k) place_last_perm)
      as (r' & Hr' & Htext');
      [constructor | apply py_range_in; lia | split; [exact Htext | reflexivity] |].
    fold shown in Hr'.
    exists (task_at fetched r'). split.
    + apply in_map, (Permutation_in r' (Permutation_sym Hperm)), Hr'.
    + rewrite Forall_forall in Hrange.
      subst rows. rewrite (row_text_display fetched r' (Hrange r' Hr')) in Htext'.
      congruence.
Qed.

Lemma issued_app (w w' : World) (l : list (Call * option exn)) :
  trace w' = trace w ++ l -> issued w w' = l.
Proof.
  intros H. unfold issued. rewrite H, skipn_app, skipn_all, Nat.sub_diag.
  reflexivity.
Qed.

Lemma call_quiet (host : Host) (c : Call) (w : World) :
  (forall c' w', raises host c' w' = None) ->
  call host c w = (Ok tt, recorded c None w).
Proof. intros H. unfold call. rewrite H. reflexivity. Qed.

Lemma fetch_entity_is (db : list Task) (v : PyVal) (t : Task) :
  In t (fetch db [{| f_field := "entity"; f_op := "is"; f_value := v |}])
  <-> In t db /\ task_entity t = v.
Proof.
  unfold fetch. rewrite filter_In. simpl. unfold task_matches; simpl.
  rewrite andb_true_r, py_eq_eq. intuition congruence.
Qed.

(** C3.  A selection whose first index holds the entity [X], on a host
    where no call raises.  [handle_asset_selection] makes [X] the active
    entity and issues exactly two calls: the Task query filtered on
    [entity is X], then the refresh request.  When the refresh has completed
    and the dialog is notified, [on_task_data_refreshed] issues exactly the
    sort on column 0, ascending.  The Tasks then shown all have [X] as parent
    entity, are in strictly ascending order of content (no content appears
    twice), and every content of a Task of [X] is shown. *)
Theorem selection_then_refresh (host : Host) (db : list Task)
    (selected deselected : QItemSelection) (index : QModelIndex)
    (rest : list QModelIndex) (X : Entity) (w : World) (h : HostState) :
  indexes selected = Ok (index :: rest) ->
  entity_proxy_data host index SG_DATA_ROLE w = Ok (PyEntity X) ->
  (forall c w', raises host c w' = None) ->
  let w1 := snd (handle_asset_selection host selected deselected w) in
  let h1 := host_replay (issued w w1) h in
  let wh := refresh_and_notify host db (w1, h1) in
  handle_asset_selection host selected deselected w = (Ok tt, w1)
  /\ active_entity w1 = Some (PyEntity X)
  /\ issued w w1
     = [(tasks_model_load_data "Task"
           ["content"; "sg_task_token"; "step.Step.short_name"]
           [{| f_field := "entity"; f_op := "is"; f_value := PyEntity X |}]
           ["content"], None);
        (tasks_model_refresh_data, None)]
  /\ issued w1 (fst wh) = [(tasks_proxy_sort 0 AscendingOrder, None)]
  /\ Forall (fun t => task_entity t = PyEntity X /\ In t db) (view_tasks (snd wh))
  /\ StronglySorted content_below (view_tasks (snd wh))
  /\ (forall t, In t db -> task_entity t = PyEntity X ->
                exists t', In t' (view_tasks (snd wh))
                           /\ task_content t' = task_content t).
Proof.
  intros Hix Hdata Hquiet.
  assert (Hrun : handle_asset_selection host selected deselected w
                 = (Ok tt,
                    recorded tasks_model_refresh_data None
                      (recorded
                         (tasks_model_load_data "Task"
                            ["content"; "sg_task_token"; "step.Step.short_name"]
                            [{| f_field := "entity"; f_op := "is";
                                f_value := PyEntity X |}]
                            ["content"]) None
                         (with_entity (PyEntity X) w)))).
  { unfold handle_asset_selection, try_except, bind, ask, load_task_data, bind.
    rewrite Hix, Hdata. cbn [set_active_entity get_active_entity with_entity active_entity].
    rewrite !(call_quiet _ _ _ Hquiet). reflexivity. }
  rewrite Hrun. cbn [snd].
  set (query := tasks_model_load_data _ _ _ _).
  set (w1 := recorded tasks_model_refresh_data None _).
  assert (Hissued : issued w w1 = [(query, None); (tasks_model_refresh_data, None)]).
  { apply issued_app. unfold w1, recorded, with_entity; simpl.
    rewrite <- app_assoc. reflexivity. }
  cbv zeta. rewrite Hissued.
  unfold refresh_and_notify, on_task_data_refreshed. cbn [fst snd].
  rewrite (call_quiet _ _ _ Hquiet). cbn [snd].
  assert (Hsort : issued w1 (recorded (tasks_proxy_sort 0 AscendingOrder) None w1)
                  = [(tasks_proxy_sort 0 AscendingOrder, None)]).
  { apply issued_app. reflexivity. }
  rewrite Hsort.
  set (h1 := host_replay [(query, None); (tasks_model_refresh_data, None)] h).
  change (host_replay [(tasks_proxy_sort 0 AscendingOrder, None)]
            (refresh_completes db h1))
    with (host_step (tasks_proxy_sort 0 AscendingOrder) (refresh_completes db h1)).
  destruct (refreshed_sorted_view db h1) as (_ & Hsorted & Hfrom & Hcover).
  assert (Hq : tasks_query h1
               = [{| f_field := "entity"; f_op := "is"; f_value := PyEntity X |}])
    by reflexivity.
  rewrite Hq in Hfrom, Hcover.
  repeat split; try reflexivity.
  - apply Forall_forall; intros t Ht.
    apply Hfrom, fetch_entity_is in Ht. tauto.
  - exact Hsorted.
  - intros t Ht HX. apply Hcover, fetch_entity_is. tauto.
Qed.

Lemma selection_then_refresh_witness :
  map task_id
    (view_tasks
       (snd (refresh_and_notify quiet_host sample_db
               (snd (handle_asset_selection quiet_host select_one select_none
                       new_dialog),
                host_replay
                  (issued new_dialog
                     (snd (handle_asset_selection quiet_host select_one
                             select_none new_dialog)))
                  no_host_state))))
  = [3; 5; 1]
  /\ StronglySorted content_below
       (view_tasks
          (snd (refresh_and_notify quiet_host sample_db
                  (snd (handle_asset_selection quiet_host select_one select_none
                          new_dialog),
                   host_replay
                     (issued new_dialog
                        (snd (handle_asset_selection quiet_host select_one
                                select_none new_dialog)))
                     no_host_state)))).
Proof.
  split; [reflexivity|].
  destruct (@selection_then_refresh quiet_host sample_db select_one select_none
              (IndexAt 0 0) [] asset_b new_dialog no_host_state
              eq_refl eq_refl (fun _ _ => eq_refl))
    as (_ & _ & _ & _ & _ & Hsorted & _).
  exact Hsorted.
Defined.

(** ** The dynamic-sort checkbox *)

Lemma on_dynamic_sort_changed_quiet (host : Host) (state : Z) (w : World) :
  (forall c w', raises host c w' = None) ->
  on_dynamic_sort_changed host state w
  = (Ok tt,
     recorded tasks_model_refresh_data None
       (recorded (tasks_proxy_setDynamicSortFilter state) None
          (logged {| levelname := DEBUG;
                     message := "*** _entity_tasks_proxy_model setDynamicSortFilter: "
                                  ++ format_int state;
                     exc_info := false |} w))).
Proof.
  intros Hquiet. unfold on_dynamic_sort_changed, bind, logger_debug, emit.
  rewrite !(call_quiet _ _ _ Hquiet). reflexivity.
Qed.

(** C7 (amended).  On a host where no call raises, each change of the
    checkbox issues exactly two calls, [setDynamicSortFilter(state)] and one
    refresh request; the proxy's flag becomes the truth value of [state] and
    the Tasks shown are untouched.  Unchecking and checking again are two
    changes: they issue two refresh requests, leave the flag set and the
    Tasks shown as they were; once a refresh has completed and the dialog
    is notified, the Tasks shown are in strictly ascending order of content
    (no content twice). *)
Theorem dynamic_sort_changes (host : Host) (db : list Task) (state : Z)
    (w : World) (h : HostState) :
  (forall c w', raises host c w' = None) ->
  let w1 := snd (on_dynamic_sort_changed host state w) in
  let w_off := snd (on_dynamic_sort_changed host 0 w) in
  let w_on := snd (on_dynamic_sort_changed host 2 w_off) in
  let h_on := host_replay (issued w w_on) h in
  (issued w w1
   = [(tasks_proxy_setDynamicSortFilter state, None); (tasks_model_refresh_data, None)]
   /\ refresh_requests (issued w w1) = 1%nat
   /\ dynamicSortFilter (host_replay (issued w w1) h) = negb (state =? 0)
   /\ view_tasks (host_replay (issued w w1) h) = view_tasks h)
  /\ (issued w w_on
      = [(tasks_proxy_setDynamicSortFilter 0, None); (tasks_model_refresh_data, None);
         (tasks_proxy_setDynamicSortFilter 2, None); (tasks_model_refresh_data, None)]
      /\ refresh_requests (issued w w_on) = 2%nat
      /\ dynamicSortFilter h_on = true
      /\ view_tasks h_on = view_tasks h
      /\ StronglySorted content_below
           (view_tasks (snd (refresh_and_notify host db (w_on, h_on))))).
Proof.
  intros Hquiet. cbv zeta.
  rewrite !(on_dynamic_sort_changed_quiet _ _ _ Hquiet). cbn [snd].
  split.
  - rewrite (@issued_app w _
               [(tasks_proxy_setDynamicSortFilter state, None);
                (tasks_model_refresh_data, None)])
      by (unfold recorded, logged; simpl; rewrite <- app_assoc; reflexivity).
    repeat split.
  - rewrite (@issued_app w _
               [(tasks_proxy_setDynamicSortFilter 0, None);
                (tasks_model_refresh_data, None);
                (tasks_proxy_setDynamicSortFilter 2, None);
                (tasks_model_refresh_data, None)])
      by (unfold recorded, logged; simpl; rewrite <- !app_assoc; reflexivity).
    repeat split.
    unfold refresh_and_notify, on_task_data_refreshed. cbn [fst snd].
    rewrite (call_quiet _ _ _ Hquiet). cbn [snd].
    rewrite (@issued_app _ _ [(tasks_proxy_sort 0 AscendingOrder, None)])
      by reflexivity.
    match goal with
    | |- context [refresh_completes db ?h0] =>
        destruct (refreshed_sorted_view db h0) as (_ & Hsorted & _)
    end.
    exact Hsorted.
Qed.

Lemma dynamic_sort_changes_witness :
  refresh_requests
    (issued new_dialog
       (snd (on_dynamic_sort_changed quiet_host 2
               (snd (on_dynamic_sort_changed quiet_host 0 new_dialog)))))
  = 2%nat
  /\ dynamicSortFilter
       (host_replay
          (issued new_dialog
             (snd (on_dynamic_sort_changed quiet_host 2
                     (snd (on_dynamic_sort_changed quiet_host 0 new_dialog)))))
          no_host_state)
     = true.
Proof.
  destruct (@dynamic_sort_changes quiet_host sample_db 0 new_dialog no_host_state
              (fun _ _ => eq_refl))
    as (_ & _ & Htwo & Hflag & _).
  split; [exact Htwo | exact Hflag].
Defined.

(** Unchecking and checking again asks for two refreshes, not one. *)
Lemma dynamic_sort_toggle_refreshes_twice :
  issued new_dialog
    (snd (on_dynamic_sort_changed quiet_host 2
            (snd (on_dynamic_sort_changed quiet_host 0 new_dialog))))
  = [(tasks_proxy_setDynamicSortFilter 0, None); (tasks_model_refresh_data, None);
     (tasks_proxy_setDynamicSortFilter 2, None); (tasks_model_refresh_data, None)]
  /\ refresh_requests
       (issued new_dialog
          (snd (on_dynamic_sort_changed quiet_host 2
                  (snd (on_dynamic_sort_changed quiet_host 0 new_dialog)))))
     <> 1%nat.
Proof. split; [reflexivity | discriminate]. Qed.

(* ===================================================================== *)
(** * Further properties of the proxy models *)
(* ===================================================================== *)

(** ** [lessThan]: errors and order *)

Lemma lessThan_texts (self : ProxyModel) (sm : SourceModel)
    (left right : QModelIndex) (a b : str) (w : World) :
  sourceModel self = Ok (Some sm) ->
  shows_str sm left a -> shows_str sm right b ->
  lessThan self left right w = (Ok (str_ltb a b), w).
Proof.
  intros Hsm (li & Hl & Hla) (ri & Hr & Hrb).
  unfold lessThan, bind, ask, the_source, item_value.
  rewrite Hsm, Hl, Hla, Hr, Hrb. reflexivity.
Qed.

(** X1.  When both items exist but one of them does not display a [str]
    ([None], as an item without text does), the comparison raises
    [TypeError] naming the two types, and changes nothing. *)
Theorem lessThan_unorderable (self : ProxyModel) (sm : SourceModel)
    (left right : QModelIndex) (litem ritem : QStandardItem) (lv rv : PyVal)
    (w : World) :
  sourceModel self = Ok (Some sm) ->
  sm_itemFromIndex sm left = Ok (Some litem) ->
  item_data litem DisplayRole = Ok lv ->
  sm_itemFromIndex sm right = Ok (Some ritem) ->
  item_data ritem DisplayRole = Ok rv ->
  is_str lv && is_str rv = false ->
  lessThan self left right w
  = (Raise (TypeError ("'<' not supported between instances of '"
                         ++ type_name lv ++ "' and '" ++ type_name rv ++ "'")),
     w).
Proof.
  intros Hsm Hl Hlv Hr Hrv Hstr.
  unfold lessThan, bind, ask, the_source, item_value.
  rewrite Hsm, Hl, Hlv, Hr, Hrv.
  destruct lv, rv; try discriminate Hstr; reflexivity.
Qed.

Lemma lessThan_unorderable_witness :
  lessThan (list_proxy untitled_rows [0; 1] stock_filterAcceptsRow)
    (IndexAt 0 0) (IndexAt 1 0) new_dialog
  = (Raise (TypeError ("'<' not supported between instances of '"
                         ++ type_name PyNone ++ "' and '"
                         ++ type_name (PyStr (lit "rig")) ++ "'")),
     new_dialog).
Proof.
  apply (@lessThan_unorderable
           (list_proxy untitled_rows [0; 1] stock_filterAcceptsRow)
           (list_source untitled_rows) (IndexAt 0 0) (IndexAt 1 0)
           {| item_data := fun role => role_value role (row_text untitled_rows 0) |}
           {| item_data := fun role => role_value role (row_text untitled_rows 1) |}
           PyNone (PyStr (lit "rig")) new_dialog);
    reflexivity.
Defined.

(** X2.  When the source model holds no item at one of the two indexes
    ([itemFromIndex] answers [None]), the comparison raises the
    [AttributeError] of [None.data], and changes nothing.  The left index is
    looked up first: with no item on the left, the right one is not read. *)
Theorem lessThan_missing_item (self : ProxyModel) (sm : SourceModel)
    (left right : QModelIndex) (w : World) :
  sourceModel self = Ok (Some sm) ->
  sm_itemFromIndex sm left = Ok None
  \/ ((exists litem lv, sm_itemFromIndex sm left = Ok (Some litem)
                        /\ item_data litem DisplayRole = Ok lv)
      /\ sm_itemFromIndex sm right = Ok None) ->
  lessThan self left right w = (Raise (no_attribute "NoneType" "data"), w).
Proof.
  intros Hsm H. unfold lessThan, bind, ask, the_source, item_value. rewrite Hsm.
  destruct H as [Hl | [(litem & lv & Hl & Hlv) Hr]].
  - rewrite Hl. reflexivity.
  - rewrite Hl, Hlv, Hr. reflexivity.
Qed.

Lemma lessThan_missing_item_witness :
  lessThan (list_proxy paint_rows [0; 1; 2] stock_filterAcceptsRow)
    (IndexAt 0 0) (IndexAt 7 0) new_dialog
  = (Raise (no_attribute "NoneType" "data"), new_dialog).
Proof.
  apply (@lessThan_missing_item
           (list_proxy paint_rows [0; 1; 2] stock_filterAcceptsRow)
           (list_source paint_rows) (IndexAt 0 0) (IndexAt 7 0) new_dialog);
    [reflexivity|].
  right. split; [|reflexivity].
  exists {| item_data := fun role => role_value role (row_text paint_rows 0) |},
         (PyStr (lit "paint")).
  split; reflexivity.
Defined.

Lemma str_ltb_irrefl (a : str) : str_ltb a a = false.
Proof.
  induction a as [|x a IH]; simpl; [reflexivity|].
  rewrite N.ltb_irrefl, N.eqb_refl. exact IH.
Qed.

Lemma str_ltb_trans (a b c : str) :
  str_ltb a b = true -> str_ltb b c = true -> str_ltb a c = true.
Proof.
  intros Hab Hbc. destruct (str_ltb a c) eqn:E; [reflexivity|].
  pose proof (str_ltb_false_trans _ _ _ (str_ltb_asym _ _ Hbc) E) as H.
  congruence.
Qed.

(** X3.  On rows that display texts, [lessThan] is a strict total order:
    no row is below itself, two rows are never below each other, the
    relation is transitive, and of two rows one is below the other unless
    they display the same text. *)
Theorem lessThan_strict_order (self : ProxyModel) (sm : SourceModel)
    (l m r : QModelIndex) (a b c : str) (w : World) :
  sourceModel self = Ok (Some sm) ->
  shows_str sm l a -> shows_str sm m b -> shows_str sm r c ->
  lessThan self l l w = (Ok false, w)
  /\ (lessThan self l m w = (Ok true, w) -> lessThan self m l w = (Ok false, w))
  /\ (lessThan self l m w = (Ok true, w) -> lessThan self m r w = (Ok true, w) ->
      lessThan self l r w = (Ok true, w))
  /\ (lessThan self l m w = (Ok true, w)
      \/ lessThan self m l w = (Ok true, w)
      \/ a = b).
Proof.
  intros Hsm Hl Hm Hr.
  rewrite !(@lessThan_texts self sm l l a a w Hsm Hl Hl),
    !(@lessThan_texts self sm l m a b w Hsm Hl Hm),
    !(@lessThan_texts self sm m l b a w Hsm Hm Hl),
    !(@lessThan_texts self sm m r b c w Hsm Hm Hr),
    !(@lessThan_texts self sm l r a c w Hsm Hl Hr).
  repeat split.
  - rewrite str_ltb_irrefl. reflexivity.
  - intros H; injection H as E. rewrite (str_ltb_asym _ _ E). reflexivity.
  - intros H1 H2; injection H1 as E1; injection H2 as E2.
    rewrite (str_ltb_trans _ _ _ E1 E2). reflexivity.
  - destruct (str_ltb a b) eqn:E1; [left; reflexivity|].
    destruct (str_ltb b a) eqn:E2; [right; left; reflexivity|].
    right; right. exact (str_ltb_total _ _ E1 E2).
Qed.

Lemma lessThan_strict_order_witness :
  lessThan (list_proxy paint_rows [0; 1; 2] stock_filterAcceptsRow)
    (IndexAt 1 0) (IndexAt 2 0) new_dialog = (Ok true, new_dialog).
Proof.
  destruct (@lessThan_strict_order
              (list_proxy paint_rows [0; 1; 2] stock_filterAcceptsRow)
              (list_source paint_rows) (IndexAt 1 0) (IndexAt 0 0) (IndexAt 2 0)
              (lit "Paint") (lit "paint") (lit "rig") new_dialog eq_refl)
    as (_ & _ & Htrans & _).
  - eexists; split; reflexivity.
  - eexists; split; reflexivity.
  - eexists; split; reflexivity.
  - apply Htrans; reflexivity.
Defined.

(** X4.  The sort and the filter agree on what "the same text" is: two
    rows displaying texts are ordered neither way by [lessThan] exactly when
    the filter's [==] holds between their texts. *)
Theorem lessThan_agrees_with_equality (self : ProxyModel) (sm : SourceModel)
    (l m : QModelIndex) (a b : str) (w : World) :
  sourceModel self = Ok (Some sm) ->
  shows_str sm l a -> shows_str sm m b ->
  (lessThan self l m w = (Ok false, w) /\ lessThan self m l w = (Ok false, w))
  <-> py_eq (PyStr a) (PyStr b) = true.
Proof.
  intros Hsm Hl Hm.
  rewrite (@lessThan_texts self sm l m a b w Hsm Hl Hm),
    (@lessThan_texts self sm m l b a w Hsm Hm Hl).
  rewrite py_eq_eq. split.
  - intros [H1 H2]. injection H1 as E1. injection H2 as E2.
    rewrite (str_ltb_total _ _ E1 E2). reflexivity.
  - intros H; injection H as ->.
    rewrite str_ltb_irrefl. split; reflexivity.
Qed.

Lemma lessThan_agrees_with_equality_witness :
  (lessThan (list_proxy repeated_rows [0; 1; 2] stock_filterAcceptsRow)
     (IndexAt 0 0) (IndexAt 2 0) new_dialog = (Ok false, new_dialog)
   /\ lessThan (list_proxy repeated_rows [0; 1; 2] stock_filterAcceptsRow)
        (IndexAt 2 0) (IndexAt 0 0) new_dialog = (Ok false, new_dialog))
  <-> py_eq (PyStr (lit "paint")) (PyStr (lit "paint")) = true.
Proof.
  apply (@lessThan_agrees_with_equality
           (list_proxy repeated_rows [0; 1; 2] stock_filterAcceptsRow)
           (list_source repeated_rows) (IndexAt 0 0) (IndexAt 2 0)
           (lit "paint") (lit "paint") new_dialog eq_refl);
    eexists; split; reflexivity.
Defined.

(** ** [filterAcceptsRow]: the three ways out *)

(** X5.  A candidate whose content a shown row displays is rejected at that
    row: the method returns [False] with nothing logged, and neither the
    rows after it nor the base class's filter are asked (they may raise). *)
Theorem filterAcceptsRow_duplicate (self : ProxyModel) (sm : SourceModel)
    (source_row : Z) (source_parent cix ix : QModelIndex) (content existing : PyVal)
    (n row : Z) (before after : list Z) (w : World) :
  sourceModel self = Ok (Some sm) ->
  sm_index sm source_row 0 source_parent = Ok cix ->
  sm_data sm cix DisplayRole = Ok content ->
  rowCount self = Ok n ->
  py_range n = before ++ row :: after ->
  scanned self content before ->
  index self row 0 = Ok ix ->
  data self ix DisplayRole = Ok existing ->
  py_eq content existing = true ->
  filterAcceptsRow self source_row source_parent w = (Ok false, w).
Proof.
  intros H1 H2 H3 H4 H5 H6 H7 H8 H9.
  unfold filterAcceptsRow, try_except, filterAcceptsRow_try, bind, ask, the_source.
  rewrite H1, H2, H3, H4, H5, (already_in_view_scanned _ w H6). simpl.
  unfold bind, ask. rewrite H7, H8, H9. reflexivity.
Qed.

Lemma filterAcceptsRow_duplicate_witness :
  filterAcceptsRow broken_proxy 2 InvalidIndex new_dialog = (Ok false, new_dialog).
Proof.
  apply (@filterAcceptsRow_duplicate broken_proxy (list_source paint_rows)
           2 InvalidIndex (IndexAt 2 0) (IndexAt 0 0)
           (PyStr (lit "rig")) (PyStr (lit "rig")) 2 0 [] [1] new_dialog);
    try reflexivity.
  constructor.
Defined.

(** X6.  A candidate whose content no shown row displays gets the answer of
    the base class's filter, with nothing logged; if the base class's filter
    raises, the answer is [False] and the exception is logged. *)
Theorem filterAcceptsRow_delegates (self : ProxyModel) (sm : SourceModel)
    (source_row : Z) (source_parent cix : QModelIndex) (content : PyVal)
    (n : Z) (w : World) :
  sourceModel self = Ok (Some sm) ->
  sm_index sm source_row 0 source_parent = Ok cix ->
  sm_data sm cix DisplayRole = Ok content ->
  rowCount self = Ok n ->
  scanned self content (py_range n) ->
  filterAcceptsRow self source_row source_parent w
  = match super_filterAcceptsRow self source_row source_parent with
    | Ok b => (Ok b, w)
    | Raise e => (Ok false, logged (filter_error e) w)
    end.
Proof.
  intros H1 H2 H3 H4 H5.
  unfold filterAcceptsRow, try_except, filterAcceptsRow_try, bind, ask, the_source.
  rewrite H1, H2, H3, H4, (already_in_view_false w H5).
  destruct (super_filterAcceptsRow self source_row source_parent); reflexivity.
Qed.

Lemma filterAcceptsRow_delegates_witness :
  filterAcceptsRow (list_proxy paint_rows [0] stock_filterAcceptsRow) 2 InvalidIndex
    new_dialog
  = (Ok true, new_dialog).
Proof.
  apply (@filterAcceptsRow_delegates
           (list_proxy paint_rows [0] stock_filterAcceptsRow) (list_source paint_rows)
           2 InvalidIndex (IndexAt 2 0) (PyStr (lit "rig")) 1 new_dialog);
    try reflexivity.
  apply (@scanned_cons _ _ 0 [] (IndexAt 0 0) (PyStr (lit "paint")));
    try reflexivity.
  constructor.
Defined.

(** X7.  An empty view: while the proxy shows no row ([rowCount()] is zero
    or less), every candidate that can be read gets the answer of the base
    class's filter. *)
Theorem filterAcceptsRow_empty_view (self : ProxyModel) (sm : SourceModel)
    (source_row : Z) (source_parent cix : QModelIndex) (content : PyVal)
    (n : Z) (b : bool) (w : World) :
  sourceModel self = Ok (Some sm) ->
  sm_index sm source_row 0 source_parent = Ok cix ->
  sm_data sm cix DisplayRole = Ok content ->
  rowCount self = Ok n ->
  n <= 0 ->
  super_filterAcceptsRow self source_row source_parent = Ok b ->
  filterAcceptsRow self source_row source_parent w = (Ok b, w).
Proof.
  intros H1 H2 H3 H4 Hn Hb.
  unfold filterAcceptsRow, try_except, filterAcceptsRow_try, bind, ask, the_source.
  rewrite H1, H2, H3, H4. unfold py_range.
  replace (Z.to_nat n) with 0%nat by lia. simpl. rewrite Hb. reflexivity.
Qed.

Lemma filterAcceptsRow_empty_view_witness :
  filterAcceptsRow (list_proxy untitled_rows [] stock_filterAcceptsRow) 0 InvalidIndex
    new_dialog
  = (Ok true, new_dialog).
Proof.
  apply (@filterAcceptsRow_empty_view
           (list_proxy untitled_rows [] stock_filterAcceptsRow)
           (list_source untitled_rows) 0 InvalidIndex (IndexAt 0 0) PyNone 0 true
           new_dialog); first [reflexivity | lia].
Defined.

(** X8.  Whatever the host answers, [filterAcceptsRow] returns a boolean
    and either leaves the state as it was or, having caught an exception of
    one of its stages, answers [False] with exactly one error record added
    to the log.  It never answers [True] after an exception, and never
    touches the dialog's attribute or its calls. *)
Theorem filterAcceptsRow_outcomes (self : ProxyModel) (source_row : Z)
    (source_parent : QModelIndex) (w : World) :
  (exists b, filterAcceptsRow self source_row source_parent w = (Ok b, w))
  \/ (exists e,
         raised_while_filtering self source_row source_parent e
         /\ filterAcceptsRow self source_row source_parent w
            = (Ok false, logged (filter_error e) w)).
Proof.
  pose proof (filterAcceptsRow_try_reads_only self source_row source_parent w) as Hw.
  unfold filterAcceptsRow, try_except.
  destruct (filterAcceptsRow_try self source_row source_parent w) as [[b|e] w'] eqn:E;
    simpl in Hw; subst w'.
  - left; exists b; reflexivity.
  - right; exists e; split; [|reflexivity].
    exact (filterAcceptsRow_try_raised _ _ _ _ E).
Qed.

(** ** The filter and the rows the proxy shows *)

(** Over readable rows the loop finds the content exactly when a shown row
    displays it. *)
Lemma scan_texts_finds (v : PyVal) (shown : list (result PyVal)) :
  Forall (fun t => exists u, t = Ok u) shown ->
  (scan_texts v shown = Ok true /\ In (Ok v) shown)
  \/ (scan_texts v shown = Ok false /\ ~ In (Ok v) shown).
Proof.
  induction 1 as [|t shown [u ->] _ IH]; simpl; [right; split; [reflexivity | tauto]|].
  destruct (py_eq v u) eqn:E.
  - apply py_eq_eq in E; subst. left; split; [reflexivity | left; reflexivity].
  - destruct IH as [[Hs Hin] | [Hs Hnin]].
    + left; split; [exact Hs | right; exact Hin].
    + right; split; [exact Hs|].
      intros [Hu | Hin]; [|exact (Hnin Hin)].
      injection Hu as ->. rewrite py_eq_refl in E. discriminate.
Qed.

Lemma texts_readable (rows : Rows) (visible : list Z) :
  Forall (readable rows) visible ->
  Forall (fun t => exists u, t = Ok u) (texts rows visible).
Proof. intros H. unfold texts. apply Forall_map. exact H. Qed.

(** X9.  The verdict does not depend on the order in which the proxy shows
    its rows: over two arrangements of the same readable rows (as before and
    after a sort) [filterAcceptsRow] answers the same and logs the same. *)
Theorem filterAcceptsRow_order_independent (rows : Rows)
    (base : Z -> QModelIndex -> result bool) (visible visible' : list Z)
    (r : Z) (w : World) :
  Permutation visible visible' ->
  Forall (readable rows) visible ->
  filterAcceptsRow (list_proxy rows visible base) r InvalidIndex w
  = filterAcceptsRow (list_proxy rows visible' base) r InvalidIndex w.
Proof.
  intros Hperm Hread. rewrite !filterAcceptsRow_list.
  destruct (row_text rows r) as [v|e]; [|reflexivity].
  assert (Hread' : Forall (readable rows) visible')
    by exact (Permutation_Forall Hperm Hread).
  assert (Hp : Permutation (texts rows visible) (texts rows visible'))
    by exact (Permutation_map (row_text rows) Hperm).
  destruct (scan_texts_finds v (texts_readable Hread)) as [[E Hin] | [E Hnin]];
    destruct (scan_texts_finds v (texts_readable Hread')) as [[E' Hin'] | [E' Hnin']];
    rewrite E, E'; try reflexivity; exfalso.
  - apply Hnin'. exact (Permutation_in _ Hp Hin).
  - apply Hnin. exact (Permutation_in _ (Permutation_sym Hp) Hin').
Qed.

Lemma filterAcceptsRow_order_independent_witness :
  filterAcceptsRow (list_proxy paint_rows [0; 1] stock_filterAcceptsRow) 1
    InvalidIndex new_dialog
  = filterAcceptsRow (list_proxy paint_rows [1; 0] stock_filterAcceptsRow) 1
      InvalidIndex new_dialog.
Proof.
  apply (@filterAcceptsRow_order_independent paint_rows stock_filterAcceptsRow
           [0; 1] [1; 0] 1 new_dialog).
  - apply perm_swap.
  - repeat constructor; eexists; reflexivity.
Defined.

(** X10.  A row the proxy already shows is rejected when it is offered
    again: it is found to be a duplicate of itself.  (So filtering the rows
    of a populated view anew hides each of them.) *)
Theorem filterAcceptsRow_rejects_shown_row (rows : Rows)
    (base : Z -> QModelIndex -> result bool) (visible : list Z) (r : Z) (w : World) :
  In r visible ->
  Forall (readable rows) visible ->
  filterAcceptsRow (list_proxy rows visible base) r InvalidIndex w = (Ok false, w).
Proof.
  intros Hin Hread. rewrite filterAcceptsRow_list.
  rewrite Forall_forall in Hread. destruct (Hread r Hin) as [v Hv]. rewrite Hv.
  rewrite <- Forall_forall in Hread.
  destruct (scan_texts_finds v (texts_readable Hread)) as [[E _] | [_ Hnin]].
  - rewrite E. reflexivity.
  - exfalso; apply Hnin. rewrite <- Hv. unfold texts. apply in_map, Hin.
Qed.

Lemma filterAcceptsRow_rejects_shown_row_witness :
  filterAcceptsRow (list_proxy paint_rows [0; 1; 2] stock_filterAcceptsRow) 1
    InvalidIndex new_dialog
  = (Ok false, new_dialog).
Proof.
  apply (@filterAcceptsRow_rejects_shown_row paint_rows stock_filterAcceptsRow
           [0; 1; 2] 1 new_dialog).
  - right; left; reflexivity.
  - repeat constructor; eexists; reflexivity.
Defined.

Lemma feed_app (rows : Rows) (base : Z -> QModelIndex -> result bool)
    (place : Z -> list Z -> list Z) (first second visible : list Z) (w : World) :
  feed rows base place (first ++ second) visible w
  = feed rows base place second
      (fst (feed rows base place first visible w))
      (snd (feed rows base place first visible w)).
Proof.
  revert visible w; induction first as [|r first IH]; intros visible w; simpl;
    [reflexivity|].
  destruct (filterAcceptsRow (list_proxy rows visible base) r InvalidIndex w)
    as [[[|]|e] w']; apply IH.
Qed.

(** Candidates whose texts are all shown already leave the view as it is. *)
Lemma feed_nothing_new (rows : Rows) (base : Z -> QModelIndex -> result bool)
    (place : Z -> list Z -> list Z) (candidates visible : list Z) (w : World) :
  Forall (readable rows) visible ->
  (forall r v, In r candidates -> eligible rows base v r ->
               In (Ok v) (texts rows visible)) ->
  fst (feed rows base place candidates visible w) = visible.
Proof.
  intros Hread. revert w; induction candidates as [|c rest IH]; intros w Hshown;
    [reflexivity|].
  destruct (feed_step rows base place c rest visible w)
    as [(v & w' & Hel & Hs & _) | (_ & w' & ->)].
  - exfalso. apply (scan_texts_false _ _ Hs).
    apply (Hshown c v); [left; reflexivity | exact Hel].
  - apply IH. intros r v Hr. apply Hshown. right; exact Hr.
Qed.

(** X11.  Feeding the same rows through the filter a second time adds
    nothing: the rows shown after candidates were fed twice are the rows
    shown after they were fed once. *)
Theorem feed_twice (rows : Rows) (base : Z -> QModelIndex -> result bool)
    (place : Z -> list Z -> list Z) (candidates : list Z) (w : World) :
  (forall r l, Permutation (place r l) (r :: l)) ->
  fst (feed rows base place (candidates ++ candidates) [] w)
  = fst (feed rows base place candidates [] w).
Proof.
  intros Hplace. rewrite feed_app.
  assert (Hempty : unique_view rows []) by (split; constructor).
  destruct (@feed_unique_view rows base place Hplace candidates [] w Hempty)
    as [Hread _].
  apply feed_nothing_new; [exact Hread|].
  intros r v Hr Hel.
  destruct (@feed_covers rows base place candidates [] w v r Hplace
              (Forall_nil _) Hr Hel) as (r' & Hr' & Hv).
  rewrite <- Hv. unfold texts. apply in_map, Hr'.
Qed.

Lemma feed_twice_witness :
  fst (feed repeated_rows stock_filterAcceptsRow place_last
         ([0; 1; 2] ++ [0; 1; 2]) [] new_dialog)
  = fst (feed repeated_rows stock_filterAcceptsRow place_last [0; 1; 2] [] new_dialog).
Proof.
  apply (@feed_twice repeated_rows stock_filterAcceptsRow place_last [0; 1; 2]
           new_dialog).
  exact place_last_perm.
Defined.

(* ===================================================================== *)
(** * Further properties of the dialog *)
(* ===================================================================== *)

(** ** Calls and exceptions *)

Lemma stops_ret {A} (a : A) : stops_when_raised (ret a).
Proof. intros w; exists []; simpl. rewrite app_nil_r. split; [reflexivity | constructor]. Qed.

Lemma stops_ask {A} (r : result A) : stops_when_raised (ask r).
Proof.
  intros w; exists []; simpl. rewrite app_nil_r. split; [reflexivity|].
  destruct r; [constructor | left; constructor].
Qed.

Lemma stops_read {A} (f : World -> result A) :
  stops_when_raised (fun w => (f w, w)).
Proof.
  intros w; exists []; simpl. rewrite app_nil_r. split; [reflexivity|].
  destruct (f w); [constructor | left; constructor].
Qed.

Lemma stops_emit (lvl : Level) (msg : string) (exc : bool) :
  stops_when_raised (emit lvl msg exc).
Proof. intros w; exists []; simpl. rewrite app_nil_r. split; [reflexivity | constructor]. Qed.

Lemma stops_set_active_entity (v : PyVal) : stops_when_raised (set_active_entity v).
Proof. intros w; exists []; simpl. rewrite app_nil_r. split; [reflexivity | constructor]. Qed.

Lemma stops_get_active_entity : stops_when_raised get_active_entity.
Proof.
  intros w; exists []. unfold get_active_entity.
  destruct (active_entity w); simpl; rewrite app_nil_r;
    (split; [reflexivity|]); [constructor | left; constructor].
Qed.

Lemma stops_call (host : Host) (c : Call) : stops_when_raised (call host c).
Proof.
  intros w; exists [(c, raises host c w)]. unfold call.
  destruct (raises host c w) as [e|]; simpl; (split; [reflexivity|]).
  - right; exists [], c; split; [reflexivity | constructor].
  - repeat constructor.
Qed.

Lemma stops_bind {A B} (m : M A) (k : A -> M B) :
  stops_when_raised m -> (forall a, stops_when_raised (k a)) ->
  stops_when_raised (bind m k).
Proof.
  intros Hm Hk w. unfold bind.
  destruct (Hm w) as (l1 & Ht1 & H1).
  destruct (m w) as [[a|e] w1]; simpl in *.
  - destruct (Hk a w1) as (l2 & Ht2 & H2).
    exists (l1 ++ l2). rewrite Ht2, Ht1, app_assoc. split; [reflexivity|].
    destruct (fst (k a w1)) as [b|e].
    + apply Forall_app; split; assumption.
    + destruct H2 as [H2 | (l0 & c & -> & H2)].
      * left; apply Forall_app; split; assumption.
      * right; exists (l1 ++ l0), c. rewrite app_assoc. split; [reflexivity|].
        apply Forall_app; split; assumption.
  - exists l1; split; assumption.
Qed.

(** What a computation of that kind leaves on the trace. *)
Lemma stops_issued {A} (m : M A) (w : World) :
  stops_when_raised m -> stops_at_failure (issued w (snd (m w))).
Proof.
  intros Hm. destruct (Hm w) as (l & Ht & H). rewrite (issued_app _ _ _ Ht).
  destruct (fst (m w)) as [a|e].
  - exists l; split; [exact H | left; reflexivity].
  - destruct H as [H | (l0 & c & -> & H)].
    + exists l; split; [exact H | left; reflexivity].
    + exists l0; split; [exact H | right; eauto].
Qed.

Lemma stops_propagates {A} (m : M A) (w : World) (c : Call) (e : exn) :
  stops_when_raised m ->
  In (c, Some e) (issued w (snd (m w))) ->
  fst (m w) = Raise e.
Proof.
  intros Hm Hin. destruct (Hm w) as (l & Ht & H). rewrite (issued_app _ _ _ Ht) in Hin.
  assert (Hno : Forall went_through l -> False).
  { intros Hall. rewrite Forall_forall in Hall.
    specialize (Hall _ Hin). discriminate Hall. }
  destruct (fst (m w)) as [a|e']; [destruct (Hno H)|].
  destruct H as [H | (l0 & c' & -> & H)]; [destruct (Hno H)|].
  apply in_app_or in Hin. destruct Hin as [Hin | [Hin | []]].
  - rewrite Forall_forall in H. specialize (H _ Hin). discriminate H.
  - injection Hin as _ ->. reflexivity.
Qed.

(** A [try] block whose handler issues no call. *)
Lemma stops_try_except {A} (body : M A) (handler : exn -> M A) (w : World) :
  stops_when_raised body ->
  (forall e w', trace (snd (handler e w')) = trace w') ->
  stops_at_failure (issued w (snd (try_except body handler w))).
Proof.
  intros Hb Hh. pose proof (@stops_issued A body w Hb) as Hs.
  unfold try_except. destruct (body w) as [[a|e] w1]; simpl in *; [exact Hs|].
  unfold issued in *. rewrite Hh. exact Hs.
Qed.

Ltac stops :=
  repeat first
    [ apply stops_bind; [| intros ]
    | apply stops_call
    | apply stops_emit
    | apply stops_ret
    | apply stops_ask
    | apply stops_read
    | apply stops_set_active_entity
    | apply stops_get_active_entity ].

Lemma load_task_data_stops (host : Host) : stops_when_raised (load_task_data host).
Proof. unfold load_task_data. stops. Qed.

Lemma unguarded_stops (host : Host) (m : Method) :
  guarded m = false -> stops_when_raised (run_method host m).
Proof.
  destruct m; try discriminate; intros _; simpl.
  - unfold init, logger_info. stops.
  - apply load_task_data_stops.
  - unfold on_task_data_refreshed. stops.
  - unfold clear_cache. stops.
  - unfold on_dynamic_sort_changed, logger_debug. stops.
Qed.

(** X12.  No method of the dialog issues a call after one of its calls
    raised: of the calls a method leaves on the trace, only the last can be
    one that raised.  This holds for the methods that let the exception
    through and for the two that catch it. *)
Theorem no_call_after_failure (host : Host) (m : Method) (w : World) :
  stops_at_failure (issued w (snd (run_method host m w))).
Proof.
  destruct (guarded m) eqn:G.
  - destruct m; try discriminate G; simpl.
    + unfold destroy. apply stops_try_except; [stops | reflexivity].
    + unfold handle_asset_selection. apply stops_try_except; [|reflexivity].
      apply stops_bind; [apply stops_ask|].
      intros [|ix rest]; [apply stops_ret|].
      apply stops_bind; [apply stops_read|]. intros v.
      apply stops_bind; [apply stops_set_active_entity|]. intros _.
      apply load_task_data_stops.
  - apply stops_issued, unguarded_stops, G.
Qed.

(** X13.  [__init__], [load_task_data], [on_task_data_refreshed],
    [clear_cache] and [on_dynamic_sort_changed] catch nothing: when one of
    their calls raises, the method raises that very exception. *)
Theorem unguarded_methods_propagate (host : Host) (m : Method) (w : World)
    (c : Call) (e : exn) :
  guarded m = false ->
  In (c, Some e) (issued w (snd (run_method host m w))) ->
  fst (run_method host m w) = Raise e.
Proof.
  intros G Hin. eapply stops_propagates; [apply unguarded_stops, G | exact Hin].
Qed.

Lemma unguarded_methods_propagate_witness :
  fst (run_method flag_fails_host (m_on_dynamic_sort_changed 2) new_dialog)
  = Raise (TypeError "setDynamicSortFilter(bool)").
Proof.
  apply (@unguarded_methods_propagate flag_fails_host (m_on_dynamic_sort_changed 2)
           new_dialog (tasks_proxy_setDynamicSortFilter 2)
           (TypeError "setDynamicSortFilter(bool)")).
  - reflexivity.
  - left; reflexivity.
Defined.

(** X14.  [destroy] and [handle_asset_selection] always return: whatever
    the selection is (even one whose [indexes()] raises) and whatever the
    host raises, nothing propagates out of them. *)
Theorem guarded_methods_return (host : Host) (m : Method) (w : World) :
  guarded m = true ->
  fst (run_method host m w) = Ok tt.
Proof.
  destruct m; try discriminate; intros _; simpl.
  - unfold destroy, try_except.
    destruct (bind (call host entity_model_destroy)
                (fun _ => call host tasks_model_destroy) w) as [[[]|e] w1];
      reflexivity.
  - unfold handle_asset_selection, try_except.
    match goal with
    | |- fst (match ?body w with _ => _ end) = _ =>
        destruct (body w) as [[[]|e] w1]; reflexivity
    end.
Qed.

Lemma guarded_methods_return_witness :
  fst (run_method load_fails_host (m_handle_asset_selection broken_selection select_none)
         new_dialog)
  = Ok tt.
Proof.
  apply (@guarded_methods_return load_fails_host
           (m_handle_asset_selection broken_selection select_none) new_dialog).
  reflexivity.
Defined.

(** ** What events can and cannot do *)

Section EventsPreserve.

Variable host : Host.
Variable R : World -> World -> Prop.
Hypothesis R_refl : forall w, R w w.
Hypothesis R_trans : forall w1 w2 w3, R w1 w2 -> R w2 w3 -> R w1 w3.
Hypothesis R_slot : forall slot ev, preserves R (run_slot host slot ev).

Lemma run_slots_preserve (slots : list Slot) (ev : UiEvent) (w : World) :
  R w (snd (run_slots host slots ev w)).
Proof.
  revert w; induction slots as [|slot rest IH]; intros w; simpl; [apply R_refl|].
  pose proof (R_slot slot ev w) as H1.
  destruct (run_slot host slot ev w) as [r w1]. specialize (IH w1).
  destruct (run_slots host rest ev w1) as [rs w2]. simpl in *.
  exact (R_trans H1 IH).
Qed.

Lemma run_events_preserve (evs : list UiEvent) (w : World) :
  R w (run_events host evs w).
Proof.
  revert w; induction evs as [|ev evs IH]; intros w; simpl; [apply R_refl|].
  exact (R_trans (run_slots_preserve _ ev w) (IH _)).
Qed.

End EventsPreserve.

Lemma only_event_calls_refl (w : World) : only_event_calls w w.
Proof. exists []. rewrite app_nil_r. split; [reflexivity | constructor]. Qed.

Lemma only_event_calls_trans (w1 w2 w3 : World) :
  only_event_calls w1 w2 -> only_event_calls w2 w3 -> only_event_calls w1 w3.
Proof.
  intros (l1 & E1 & H1) (l2 & E2 & H2). exists (l1 ++ l2).
  rewrite E2, E1, app_assoc. split; [reflexivity | apply Forall_app; split; assumption].
Qed.

Lemma call_only_event_calls (host : Host) (c : Call) :
  event_call c = true -> preserves only_event_calls (call host c).
Proof.
  intros Hc w. exists [(c, raises host c w)]. unfold call.
  destruct (raises host c w); simpl; (split; [reflexivity | repeat constructor; exact Hc]).
Qed.

Lemma same_trace_only_event_calls {A} (m : M A) :
  (forall w, trace (snd (m w)) = trace w) -> preserves only_event_calls m.
Proof.
  intros H w. exists []. rewrite app_nil_r, H. split; [reflexivity | constructor].
Qed.

Ltac only_events :=
  repeat first
    [ apply preserves_bind; [exact only_event_calls_trans | | intros ]
    | apply preserves_try_except; [exact only_event_calls_trans | | intros ]
    | apply call_only_event_calls; reflexivity
    | apply same_trace_only_event_calls; intros; reflexivity ].

Lemma load_task_data_only_event_calls (host : Host) :
  preserves only_event_calls (load_task_data host).
Proof.
  unfold load_task_data.
  apply preserves_bind; [exact only_event_calls_trans | |intros; only_events].
  apply same_trace_only_event_calls. intros w. unfold get_active_entity.
  destruct (active_entity w); reflexivity.
Qed.

Lemma run_slot_only_event_calls (host : Host) (slot : Slot) (ev : UiEvent) :
  preserves only_event_calls (run_slot host slot ev).
Proof.
  destruct slot, ev; simpl;
    try solve [apply same_trace_only_event_calls; intros; reflexivity];
    try solve [apply load_task_data_only_event_calls];
    try solve [unfold on_task_data_refreshed; only_events];
    try solve [unfold on_dynamic_sort_changed, logger_debug, emit; only_events];
    try solve [apply call_only_event_calls; reflexivity].
  unfold handle_asset_selection, logger_error, emit.
  apply preserves_try_except; [exact only_event_calls_trans | | intros; only_events].
  apply preserves_bind; [exact only_event_calls_trans | only_events |].
  intros [|ix rest]; [only_events|].
  apply preserves_bind; [exact only_event_calls_trans | only_events |]. intros v.
  apply preserves_bind; [exact only_event_calls_trans | only_events |]. intros _.
  apply load_task_data_only_event_calls.
Qed.

(** X15.  Whatever events arrive, in whatever state and however the
    signals are wired, their handlers issue Task queries, refresh requests,
    hard refreshes, sorts and changes of the dynamic-sort flag, and nothing
    else: no model is created, released or cleared and no signal is
    connected by an event.  In particular [clear_cache], which no signal is
    connected to, never runs. *)
Theorem events_issue_only_event_calls (host : Host) (evs : list UiEvent) (w : World) :
  Forall (fun co => event_call (fst co) = true) (issued w (run_events host evs w))
  /\ ~ In tasks_model_clear (map fst (issued w (run_events host evs w)))
  /\ ~ In tasks_model_destroy (map fst (issued w (run_events host evs w)))
  /\ ~ In entity_model_destroy (map fst (issued w (run_events host evs w))).
Proof.
  destruct (run_events_preserve host only_event_calls_refl only_event_calls_trans
              (run_slot_only_event_calls host) evs w) as (l & Ht & Hl).
  rewrite (issued_app _ _ _ Ht).
  split; [exact Hl|].
  rewrite Forall_forall in Hl.
  repeat split; intros Hin; apply in_map_iff in Hin;
    destruct Hin as ([c o] & Hc & Hin); simpl in Hc; subst c;
    specialize (Hl _ Hin); discriminate Hl.
Qed.

Lemma entity_kept_refl (w : World) : entity_kept w w.
Proof. intros H; exact H. Qed.

Lemma entity_kept_trans (w1 w2 w3 : World) :
  entity_kept w1 w2 -> entity_kept w2 w3 -> entity_kept w1 w3.
Proof. unfold entity_kept; auto. Qed.

Lemma same_entity_kept {A} (m : M A) :
  preserves same_entity m -> preserves entity_kept m.
Proof. intros H w Hw. rewrite (H w). exact Hw. Qed.

Lemma run_slot_entity_kept (host : Host) (slot : Slot) (ev : UiEvent) :
  preserves entity_kept (run_slot host slot ev).
Proof.
  destruct slot, ev; simpl;
    try solve [apply same_entity_kept; intros w; reflexivity];
    try solve [apply same_entity_kept, load_task_data_same_entity];
    try solve [apply same_entity_kept, on_task_data_refreshed_same_entity];
    try solve [apply same_entity_kept, on_dynamic_sort_changed_same_entity];
    try solve [apply same_entity_kept, call_same_entity].
  unfold handle_asset_selection, logger_error.
  apply preserves_try_except;
    [exact entity_kept_trans | | intros; apply same_entity_kept, emit_same_entity].
  apply preserves_bind; [exact entity_kept_trans | |].
  { apply same_entity_kept. intros w; reflexivity. }
  intros [|ix rest]; [apply same_entity_kept; intros w; reflexivity|].
  apply preserves_bind; [exact entity_kept_trans | |].
  { apply same_entity_kept. intros w; reflexivity. }
  intros v. apply preserves_bind; [exact entity_kept_trans | |].
  { intros w _. discriminate. }
  intros _. apply same_entity_kept, load_task_data_same_entity.
Qed.

(** X16.  Once the dialog has an active entity it has one for good: no
    event removes the attribute.  From then on [load_task_data] gets past
    reading it, and the first call it issues is the Task query on the
    entity that is active at that moment. *)
Theorem active_entity_stays (host : Host) (evs : list UiEvent) (w : World) (v : PyVal) :
  active_entity w = Some v ->
  exists v',
    active_entity (run_events host evs w) = Some v'
    /\ exists o rest,
         issued (run_events host evs w)
           (snd (load_task_data host (run_events host evs w)))
         = (task_query v', o) :: rest.
Proof.
  intros Hv.
  pose proof (run_events_preserve host entity_kept_refl entity_kept_trans
                (run_slot_entity_kept host) evs w) as Hk.
  destruct (active_entity (run_events host evs w)) as [v'|] eqn:E.
  2:{ exfalso. apply Hk; [rewrite Hv; discriminate | exact E]. }
  exists v'; split; [reflexivity|].
  set (w' := run_events host evs w) in *.
  unfold load_task_data, bind, get_active_entity, call. rewrite E.
  fold (task_query v').
  destruct (raises host (task_query v') w') as [e|] eqn:Eq; simpl.
  - exists (Some e), []. apply issued_app. reflexivity.
  - match goal with
    | |- context [raises host tasks_model_refresh_data ?w1] =>
        destruct (raises host tasks_model_refresh_data w1) as [e|]; simpl
    end;
      eexists None, [_]; apply issued_app; simpl; rewrite <- app_assoc; reflexivity.
Qed.

Lemma active_entity_stays_witness :
  exists v',
    active_entity
      (run_events quiet_host
         [ev_selectionChanged select_none select_none; ev_stateChanged 0;
          ev_clear_cache_clicked]
         selected_dialog) = Some v'
    /\ exists o rest,
         issued
           (run_events quiet_host
              [ev_selectionChanged select_none select_none; ev_stateChanged 0;
               ev_clear_cache_clicked]
              selected_dialog)
           (snd (load_task_data quiet_host
                   (run_events quiet_host
                      [ev_selectionChanged select_none select_none; ev_stateChanged 0;
                       ev_clear_cache_clicked]
                      selected_dialog)))
         = (task_query v', o) :: rest.
Proof.
  apply (@active_entity_stays quiet_host
           [ev_selectionChanged select_none select_none; ev_stateChanged 0;
            ev_clear_cache_clicked]
           selected_dialog (PyEntity asset_b)).
  reflexivity.
Defined.

(** ** Construction and the buttons *)

Lemma init_logs_once (host : Host) :
  fst (init host new_dialog) = Ok tt ->
  log (snd (init host new_dialog))
  = [{| levelname := INFO; message := "Launching Test App..."; exc_info := false |}].
Proof.
  unfold init, bind, call, logger_info, emit.
  repeat match goal with
         | |- context [raises host ?c ?w] =>
             destruct (raises host c w); simpl; [discriminate|]
         | |- context [tasks_proxy_dynamicSortFilter host ?w] =>
             destruct (tasks_proxy_dynamicSortFilter host w); simpl; [|discriminate]
         end.
  intros _. reflexivity.
Qed.

(** X17.  A dialog whose [__init__] ran through has every signal connected
    to exactly one slot: selection changes to [handle_asset_selection], the
    refresh notification to [on_task_data_refreshed], the refresh button to
    [load_task_data], the clear-cache button to the Task model's
    [hard_refresh] and the checkbox to [on_dynamic_sort_changed].  It has
    logged one INFO record and has no active entity; and the connections
    stay as they are whatever events arrive. *)
Theorem init_connects_each_signal_once (host : Host) (evs : list UiEvent) (sig : Signal) :
  fst (init host new_dialog) = Ok tt ->
  slots_of sig (snd (init host new_dialog)) = [wired sig]
  /\ slots_of sig (run_events host evs (snd (init host new_dialog))) = [wired sig]
  /\ log (snd (init host new_dialog))
     = [{| levelname := INFO; message := "Launching Test App..."; exc_info := false |}]
  /\ active_entity (snd (init host new_dialog)) = None.
Proof.
  intros Hinit. repeat split.
  - apply init_wires, Hinit.
  - rewrite (run_events_preserve host same_wiring_refl same_wiring_trans
               (run_slot_same_wiring host) evs _ sig).
    apply init_wires, Hinit.
  - apply init_logs_once, Hinit.
  - exact (init_same_entity host new_dialog).
Qed.

Lemma init_connects_each_signal_once_witness :
  slots_of clear_cache_clicked (snd (init quiet_host new_dialog))
  = [slot_hard_refresh]
  /\ slots_of clear_cache_clicked
       (run_events quiet_host [ev_stateChanged 0; ev_refresh_clicked]
          (snd (init quiet_host new_dialog)))
     = [slot_hard_refresh].
Proof.
  destruct (@init_connects_each_signal_once quiet_host
              [ev_stateChanged 0; ev_refresh_clicked] clear_cache_clicked eq_refl)
    as (H1 & H2 & _).
  split; [exact H1 | exact H2].
Defined.

(** X18.  The clear-cache button does not run [clear_cache]: on a dialog
    that was constructed, after any events, a click issues the Task model's
    [hard_refresh] and nothing else.  It needs no active entity, and lets
    through what [hard_refresh] raises. *)
Theorem clear_cache_button_hard_refreshes (host : Host) (evs : list UiEvent) :
  fst (init host new_dialog) = Ok tt ->
  deliver host ev_clear_cache_clicked (run_events host evs (snd (init host new_dialog)))
  = ([match raises host tasks_model_hard_refresh
              (run_events host evs (snd (init host new_dialog))) with
      | None => Ok tt
      | Some e => Raise e
      end],
     recorded tasks_model_hard_refresh
       (raises host tasks_model_hard_refresh
          (run_events host evs (snd (init host new_dialog))))
       (run_events host evs (snd (init host new_dialog)))).
Proof.
  intros Hinit.
  rewrite deliver_wired.
  2:{ intros sig.
      rewrite (run_events_preserve host same_wiring_refl same_wiring_trans
                 (run_slot_same_wiring host) evs _ sig).
      apply init_wires, Hinit. }
  cbn [signal_of wired run_slot]. unfold call.
  destruct (raises host tasks_model_hard_refresh
              (run_events host evs (snd (init host new_dialog)))); reflexivity.
Qed.

Lemma clear_cache_button_hard_refreshes_witness :
  deliver quiet_host ev_clear_cache_clicked
    (run_events quiet_host [] (snd (init quiet_host new_dialog)))
  = ([Ok tt],
     recorded tasks_model_hard_refresh None
       (run_events quiet_host [] (snd (init quiet_host new_dialog)))).
Proof.
  apply (@clear_cache_button_hard_refreshes quiet_host []). reflexivity.
Defined.

(** ** Selections *)

(** X19.  A selection whose first index the entity proxy answers for makes
    the answer the active entity, whatever it is ([None] for a node of the
    tree that stands for no entity), whatever was active before and whatever
    happens to the query; the indexes after the first are not looked at.
    The first call issued is the Task query on that value. *)
Theorem selection_makes_entity_active (host : Host)
    (selected deselected : QItemSelection) (index : QModelIndex)
    (rest : list QModelIndex) (v : PyVal) (w : World) :
  indexes selected = Ok (index :: rest) ->
  entity_proxy_data host index SG_DATA_ROLE w = Ok v ->
  active_entity (snd (handle_asset_selection host selected deselected w)) = Some v
  /\ exists o more,
       issued w (snd (handle_asset_selection host selected deselected w))
       = (task_query v, o) :: more.
Proof.
  intros Hix Hv.
  unfold handle_asset_selection, try_except, bind, ask, load_task_data, bind.
  rewrite Hix, Hv.
  cbn [set_active_entity get_active_entity with_entity active_entity].
  fold (task_query v). unfold call.
  destruct (raises host (task_query v) (with_entity v w)) as [e|]; simpl.
  - split; [reflexivity|]. exists (Some e), []. apply issued_app. reflexivity.
  - match goal with
    | |- context [raises host tasks_model_refresh_data ?w1] =>
        destruct (raises host tasks_model_refresh_data w1) as [e|]; simpl
    end;
      (split; [reflexivity|]); eexists None, [_]; apply issued_app; simpl;
      rewrite <- app_assoc; reflexivity.
Qed.

Lemma selection_makes_entity_active_witness :
  active_entity
    (snd (handle_asset_selection load_fails_host select_one select_none after_asset_a))
  = Some (PyEntity asset_b)
  /\ exists o more,
       issued after_asset_a
         (snd (handle_asset_selection load_fails_host select_one select_none
                 after_asset_a))
       = (task_query (PyEntity asset_b), o) :: more.
Proof.
  apply (@selection_makes_entity_active load_fails_host select_one select_none
           (IndexAt 0 0) [] (PyEntity asset_b) after_asset_a);
    reflexivity.
Defined.




(** ** [clear_cache] *)


